(** * The instructor dashboard of the case discussion board

    A shallow embedding of [src/app/page.tsx] (the [HomePage] component):
    its string pipeline (slug derivation, identity normalisation), its React
    state, its effects and its four event handlers, followed by the
    properties of the specification that concern them. *)

From Stdlib Require Import NArith List Ascii String Bool Lia.
From stdpp Require Import base option list gmap.

Local Open Scope N_scope.
Local Open Scope list_scope.

(** ** JavaScript strings

    A JavaScript string is a sequence of UTF-16 code units.  The empty list
    is the empty string, the only falsy string. *)

Abbreviation jsstring := (list N).

(** An ASCII literal of the source, as code units. *)
Definition js (s : string) : jsstring :=
  List.map N_of_ascii (list_ascii_of_string s).

Module JsString.

(** [WhiteSpace] and [LineTerminator] of ECMAScript: what [trim] removes and
    what the class [\s] of a regular expression matches. *)
Definition isWhiteSpace (c : N) : bool :=
  ((0x09 <=? c) && (c <=? 0x0D))          (* TAB LF VT FF CR *)
  || (c =? 0x20) || (c =? 0xA0) || (c =? 0x1680)
  || ((0x2000 <=? c) && (c <=? 0x200A))
  || (c =? 0x2028) || (c =? 0x2029) || (c =? 0x202F)
  || (c =? 0x205F) || (c =? 0x3000) || (c =? 0xFEFF).

Fixpoint trimStart (s : jsstring) : jsstring :=
  match s with
  | [] => []
  | c :: r => if isWhiteSpace c then trimStart r else s
  end.

Definition trimEnd (s : jsstring) : jsstring :=
  List.rev (trimStart (List.rev s)).

(** [String.prototype.trim]. *)
Definition trim (s : jsstring) : jsstring := trimEnd (trimStart s).

(** *** Code points

    [toLowerCase] works on code points: the string is decoded
    ([StringToCodePoints]), mapped, and encoded again
    ([CodePointsToString]). *)

Definition isLeadingSurrogate (c : N) : bool := (0xD800 <=? c) && (c <=? 0xDBFF).
Definition isTrailingSurrogate (c : N) : bool := (0xDC00 <=? c) && (c <=? 0xDFFF).

Definition UTF16SurrogatePairToCodePoint (lead trail : N) : N :=
  (lead - 0xD800) * 0x400 + (trail - 0xDC00) + 0x10000.

Fixpoint StringToCodePoints (s : jsstring) : list N :=
  match s with
  | [] => []
  | c :: r =>
      match r with
      | d :: r' =>
          if isLeadingSurrogate c && isTrailingSurrogate d
          then UTF16SurrogatePairToCodePoint c d :: StringToCodePoints r'
          else c :: StringToCodePoints r
      | [] => [c]
      end
  end.

Definition UTF16EncodeCodePoint (cp : N) : jsstring :=
  if cp <=? 0xFFFF then [cp]
  else [ (cp - 0x10000) / 0x400 + 0xD800 ; (cp - 0x10000) mod 0x400 + 0xDC00 ].

Definition CodePointsToString (cps : list N) : jsstring :=
  List.flat_map UTF16EncodeCodePoint cps.

Section Lowercase.

(** The Unicode lower-case mapping of the code points outside ASCII is a
    table of the JavaScript engine, not of this repository: it is a
    parameter.  [unicodeLower before c after] is the mapping of the code
    point [c], which may be several code points and may depend on the code
    points [before] it (nearest first) and [after] it (the final sigma
    rule). *)
Variable unicodeLower : list N -> N -> list N -> list N.

Definition lowerCodePoint (before : list N) (c : N) (after : list N) : list N :=
  if (0x41 <=? c) && (c <=? 0x5A) then [c + 0x20]     (* A-Z *)
  else if c <? 0x80 then [c]
  else unicodeLower before c after.

Fixpoint toLowercaseFrom (before cps : list N) : list N :=
  match cps with
  | [] => []
  | c :: after =>
      lowerCodePoint before c after ++ toLowercaseFrom (c :: before) after
  end.

(** [String.prototype.toLowerCase]. *)
Definition toLowerCase (s : jsstring) : jsstring :=
  CodePointsToString (toLowercaseFrom [] (StringToCodePoints s)).

End Lowercase.

(** [s.replace(/\s+/g, "-")]: every maximal run of white space becomes one
    hyphen.  [inRun] tells that the code unit before was white space, so
    that the hyphen of the run is already out. *)
Definition hyphen : N := 0x2D.

Fixpoint replaceWhitespaceRunsFrom (inRun : bool) (s : jsstring) : jsstring :=
  match s with
  | [] => []
  | c :: r =>
      if isWhiteSpace c
      then (if inRun then replaceWhitespaceRunsFrom true r
            else hyphen :: replaceWhitespaceRunsFrom true r)
      else c :: replaceWhitespaceRunsFrom false r
  end.

Definition replaceWhitespaceRuns (s : jsstring) : jsstring :=
  replaceWhitespaceRunsFrom false s.

(** The class [[a-z0-9-]]. *)
Definition isSlugChar (c : N) : bool :=
  ((0x61 <=? c) && (c <=? 0x7A)) || ((0x30 <=? c) && (c <=? 0x39)) || (c =? hyphen).

(** [s.replace(/[^a-z0-9-]/g, empty)]: the code units outside the class go. *)
Definition stripNonSlugChars (s : jsstring) : jsstring :=
  List.filter isSlugChar s.

(** Truthiness of a string, and of a [string | null]. *)
Definition truthy (s : jsstring) : bool :=
  match s with [] => false | _ :: _ => true end.

Definition truthyOrNull (o : option jsstring) : option jsstring :=
  match o with
  | Some (c :: r) => Some (c :: r)
  | _ => None
  end.

(** [a || b] on strings. *)
Definition orElse (a b : jsstring) : jsstring :=
  if truthy a then a else b.

End JsString.

Import JsString.

(** ** The component's state and its surroundings *)

(** [interface CaseRow]. *)
Record CaseRow : Type := {
  id : jsstring;
  title : jsstring;
  created_at : jsstring;
  created_by : jsstring
}.

(** The object literal given to [insert] by [handleCreate]. *)
Record NewCase : Type := {
  new_id : jsstring;
  new_title : jsstring;
  new_created_by : jsstring
}.

(** The eight [useState] cells of [HomePage]. *)
Record PageState : Type := {
  cases : list CaseRow;
  newId : jsstring;
  newTitle : jsstring;
  creating : bool;
  loading : bool;
  email : option jsstring;
  emailInput : jsstring;
  deleting : option jsstring
}.

(** The initial values given to [useState]. *)
Definition initialPage : PageState :=
  {| cases := []; newId := []; newTitle := []; creating := false;
     loading := true; email := None; emailInput := []; deleting := None |}.

(** What the component calls outside itself, in the order of the calls. *)
Inductive Call : Type :=
| PreventDefault
| GetItem (key : jsstring)
| SetItem (key value : jsstring)
| RemoveItem (key : jsstring)
| WindowConfirm (message : jsstring)
| CreateClient
| Select (table columns eqColumn eqValue orderColumn : jsstring) (ascending : bool)
| Insert (table : jsstring) (row : NewCase)
| Delete (table eqColumn eqValue : jsstring).

(** The calls that reach the remote store. *)
Definition isRemote (c : Call) : bool :=
  match c with
  | Select _ _ _ _ _ _ | Insert _ _ | Delete _ _ _ => true
  | _ => false
  end.

Definition remoteCalls (tr : list Call) : list Call := List.filter isRemote tr.

Definition isInsert (c : Call) : bool :=
  match c with Insert _ _ => true | _ => false end.

(** The page, [localStorage], and the calls made so far (oldest first). *)
Record World : Type := {
  page : PageState;
  localStorage : gmap (list N) (list N);
  log : list Call
}.

(** What the surroundings answer: the user to [window.confirm], the remote
    store to a [select] (its [data], [None] for [null]).  Both may depend on
    everything that happened before, the call answered included. *)
Record Env : Type := {
  userConfirms : list Call -> bool;
  selectData : list Call -> option (list CaseRow)
}.

(** *** Actions: state passing over the world

    An effect or a handler is an action on the world.  It is run to its
    end: every awaited call is answered before the statement after it, and
    no other event of the page comes in between.  The exceptions that the
    browser may raise (a full or disabled [localStorage]) are left out. *)

Definition Action (A : Type) : Type := World -> A * World.

Definition ret {A} (a : A) : Action A := fun w => (a, w).

Definition bind {A B} (m : Action A) (k : A -> Action B) : Action B :=
  fun w => let (a, w') := m w in k a w'.

Declare Scope action_scope.
Delimit Scope action_scope with action.
Notation "x <- m ;; k" := (bind m (fun x => k))
  (at level 100, m at next level, right associativity) : action_scope.
Notation "m ;; k" := (bind m (fun _ => k))
  (at level 100, right associativity) : action_scope.
Local Open Scope action_scope.

Definition exec {A} (m : Action A) (w : World) : World := snd (m w).

(** The calls an action adds to the log. *)
Definition issued {A} (m : Action A) (w : World) : list Call :=
  drop (length (log w)) (log (exec m w)).

Definition call (c : Call) : Action unit :=
  fun w => (tt, {| page := page w; localStorage := localStorage w;
                   log := log w ++ [c] |}).

(** The values a handler reads are those of the render it belongs to. *)
Definition render : Action PageState := fun w => (page w, w).

Definition setPage (f : PageState -> PageState) : Action unit :=
  fun w => (tt, {| page := f (page w); localStorage := localStorage w;
                   log := log w |}).

Definition setCases (v : list CaseRow) : Action unit :=
  setPage (fun p => {| cases := v; newId := newId p; newTitle := newTitle p;
    creating := creating p; loading := loading p; email := email p;
    emailInput := emailInput p; deleting := deleting p |}).

Definition setNewId (v : jsstring) : Action unit :=
  setPage (fun p => {| cases := cases p; newId := v; newTitle := newTitle p;
    creating := creating p; loading := loading p; email := email p;
    emailInput := emailInput p; deleting := deleting p |}).

Definition setNewTitle (v : jsstring) : Action unit :=
  setPage (fun p => {| cases := cases p; newId := newId p; newTitle := v;
    creating := creating p; loading := loading p; email := email p;
    emailInput := emailInput p; deleting := deleting p |}).

Definition setCreating (v : bool) : Action unit :=
  setPage (fun p => {| cases := cases p; newId := newId p; newTitle := newTitle p;
    creating := v; loading := loading p; email := email p;
    emailInput := emailInput p; deleting := deleting p |}).

Definition setLoading (v : bool) : Action unit :=
  setPage (fun p => {| cases := cases p; newId := newId p; newTitle := newTitle p;
    creating := creating p; loading := v; email := email p;
    emailInput := emailInput p; deleting := deleting p |}).

Definition setEmail (v : option jsstring) : Action unit :=
  setPage (fun p => {| cases := cases p; newId := newId p; newTitle := newTitle p;
    creating := creating p; loading := loading p; email := v;
    emailInput := emailInput p; deleting := deleting p |}).

Definition setEmailInput (v : jsstring) : Action unit :=
  setPage (fun p => {| cases := cases p; newId := newId p; newTitle := newTitle p;
    creating := creating p; loading := loading p; email := email p;
    emailInput := v; deleting := deleting p |}).

Definition setDeleting (v : option jsstring) : Action unit :=
  setPage (fun p => {| cases := cases p; newId := newId p; newTitle := newTitle p;
    creating := creating p; loading := loading p; email := email p;
    emailInput := emailInput p; deleting := v |}).

(** *** [localStorage] *)

Definition getItem (key : jsstring) : Action (option jsstring) :=
  fun w => (localStorage w !! key,
            {| page := page w; localStorage := localStorage w;
               log := log w ++ [GetItem key] |}).

Definition setItem (key value : jsstring) : Action unit :=
  fun w => (tt, {| page := page w; localStorage := <[key := value]> (localStorage w);
                   log := log w ++ [SetItem key value] |}).

Definition removeItem (key : jsstring) : Action unit :=
  fun w => (tt, {| page := page w; localStorage := delete key (localStorage w);
                   log := log w ++ [RemoveItem key] |}).

(** The fixed key of the identity. *)
Definition instructor_email : jsstring := js "instructor_email".

(** ** The component *)

(** Which of the two screens [HomePage] returns. *)
Inductive Screen : Type := EmailPrompt | Dashboard.

Definition screen (p : PageState) : Screen :=
  match truthyOrNull (email p) with
  | None => EmailPrompt
  | Some _ => Dashboard
  end.

(** The message of the confirmation prompt (34 is the double quote). *)
Definition confirmMessage (caseTitle : jsstring) : jsstring :=
  js "Delete case " ++ [34] ++ caseTitle ++ [34]
    ++ js "? All responses will be permanently deleted.".

Section HomePage.

Variable unicodeLower : list N -> N -> list N -> list N.
Variable env : Env.

(** *** The surroundings *)

Definition windowConfirm (message : jsstring) : Action bool :=
  fun w => let lg := log w ++ [WindowConfirm message] in
           (userConfirms env lg,
            {| page := page w; localStorage := localStorage w; log := lg |}).

Definition createClient : Action unit := call CreateClient.

(** [await supabase.from(table).select(columns).eq(c, v).order(o, {ascending})],
    giving [data]. *)
Definition select (table columns eqColumn eqValue orderColumn : jsstring)
    (ascending : bool) : Action (option (list CaseRow)) :=
  fun w => let lg := log w ++ [Select table columns eqColumn eqValue orderColumn ascending] in
           (selectData env lg,
            {| page := page w; localStorage := localStorage w; log := lg |}).

(** [await supabase.from(table).insert(row)]; the result is dropped. *)
Definition insert (table : jsstring) (row : NewCase) : Action unit :=
  call (Insert table row).

(** [await supabase.from(table).delete().eq(c, v)]; the result is dropped. *)
Definition deleteEq (table eqColumn eqValue : jsstring) : Action unit :=
  call (Delete table eqColumn eqValue).

(** *** Slug derivation (line 70) *)

Definition slugOf (raw : jsstring) : jsstring :=
  stripNonSlugChars (replaceWhitespaceRuns (toLowerCase unicodeLower (trim raw))).

(** *** Effects *)

(** The effect run once after the first render. *)
Definition mountEffect : Action unit :=
  stored <- getItem instructor_email ;;
  match truthyOrNull stored with
  | Some s => setEmail (Some s)
  | None => setLoading false
  end.

Definition loadCases (forEmail : jsstring) : Action unit :=
  setLoading true ;;
  createClient ;;
  data <- select (js "case_config") (js "id, title, created_at, created_by")
                 (js "created_by") forEmail (js "created_at") false ;;
  setCases (default [] data) ;;
  setLoading false.

(** The effect run when [email] has changed. *)
Definition emailEffect : Action unit :=
  p <- render ;;
  match truthyOrNull (email p) with
  | Some e => loadCases e
  | None => ret tt
  end.

(** *** Handlers *)

Definition handleEmailSubmit : Action unit :=
  p <- render ;;
  call PreventDefault ;;
  let trimmed := toLowerCase unicodeLower (trim (emailInput p)) in
  if negb (truthy trimmed) then ret tt
  else
    setItem instructor_email trimmed ;;
    setEmail (Some trimmed).

Definition handleSwitch : Action unit :=
  removeItem instructor_email ;;
  setEmail None ;;
  setEmailInput [] ;;
  setCases [] ;;
  setLoading false.

Definition handleCreate : Action unit :=
  p <- render ;;
  call PreventDefault ;;
  match truthyOrNull (email p) with
  | None => ret tt
  | Some e =>
      let slug := slugOf (newId p) in
      if negb (truthy slug) then ret tt
      else
        setCreating true ;;
        createClient ;;
        insert (js "case_config")
               {| new_id := slug;
                  new_title := orElse (trim (newTitle p)) (js "New Case");
                  new_created_by := e |} ;;
        setNewId [] ;;
        setNewTitle [] ;;
        setCreating false ;;
        loadCases e
  end.

Definition handleDelete (caseId caseTitle : jsstring) : Action unit :=
  p <- render ;;
  match truthyOrNull (email p) with
  | None => ret tt
  | Some e =>
      ok <- windowConfirm (confirmMessage caseTitle) ;;
      if negb ok then ret tt
      else
        setDeleting (Some caseId) ;;
        createClient ;;
        deleteEq (js "responses") (js "case_id") caseId ;;
        deleteEq (js "case_config") (js "id") caseId ;;
        setDeleting None ;;
        loadCases e
  end.

End HomePage.

(** The state before any identity is known: the initial state once
    [mountEffect] has found nothing in [localStorage]. *)
Definition preIdentityPage : PageState :=
  {| cases := []; newId := []; newTitle := []; creating := false;
     loading := false; email := None; emailInput := []; deleting := None |}.

(** A switch that puts the case list, the loading flag and all three input
    fields back to their values of [preIdentityPage]. *)
Definition switchResetsAll (w : World) : Prop :=
  let w' := exec handleSwitch w in
  localStorage w' !! instructor_email = None /\
  cases (page w') = cases preIdentityPage /\
  loading (page w') = loading preIdentityPage /\
  emailInput (page w') = emailInput preIdentityPage /\
  newId (page w') = newId preIdentityPage /\
  newTitle (page w') = newTitle preIdentityPage.

(** ** Sample surroundings and states *)

Module Samples.

(** A fragment of the Unicode table: the capital letters of Latin-1 and the
    Kelvin sign; every other code point is left as it is. *)
Definition latin1Lower (before : list N) (c : N) (after : list N) : list N :=
  if (0xC0 <=? c) && (c <=? 0xDE) && negb (c =? 0xD7) then [c + 0x20]
  else if c =? 0x212A then [0x6B]
  else [c].

Definition skims : CaseRow :=
  {| id := js "skims"; title := js "Skims"; created_at := js "2024-01-01T00:00:00Z";
     created_by := js "bob@school.edu" |}.

(** A user who accepts every prompt, a store that answers one row. *)
Definition agreeing : Env :=
  {| userConfirms := fun _ => true; selectData := fun _ => Some [skims] |}.

(** A user who declines every prompt, a store that answers [null]. *)
Definition declining : Env :=
  {| userConfirms := fun _ => false; selectData := fun _ => None |}.

Definition dashboardPage (rawId rawTitle : jsstring) : PageState :=
  {| cases := [skims]; newId := rawId; newTitle := rawTitle; creating := false;
     loading := false; email := Some (js "bob@school.edu"); emailInput := [];
     deleting := None |}.

Definition dashboard (rawId rawTitle : jsstring) : World :=
  {| page := dashboardPage rawId rawTitle;
     localStorage := {[ instructor_email := js "bob@school.edu" ]};
     log := [] |}.

(** No identity, with [typed] in the field of the capture form. *)
Definition capture (typed : jsstring) : World :=
  {| page := {| cases := []; newId := []; newTitle := []; creating := false;
                loading := false; email := None; emailInput := typed;
                deleting := None |};
     localStorage := ∅;
     log := [] |}.

(** No identity, with text left in the two fields of the creation form. *)
Definition signedOut (rawId rawTitle : jsstring) : World :=
  {| page := {| cases := []; newId := rawId; newTitle := rawTitle;
                creating := false; loading := false; email := None;
                emailInput := []; deleting := None |};
     localStorage := ∅;
     log := [] |}.

(** The first render, with [stored] under the identity key. *)
Definition firstRender (stored : jsstring) : World :=
  {| page := initialPage;
     localStorage := {[ instructor_email := stored ]};
     log := [] |}.

End Samples.

(** ** Proof steps shared by the handlers *)

Ltac unfold_actions :=
  unfold exec, bind, ret, render, call, getItem, setItem, removeItem,
    setCases, setNewId, setNewTitle, setCreating, setLoading, setEmail,
    setEmailInput, setDeleting, setPage in *.

Ltac flatten_log := rewrite <- ?app_assoc; simpl.

(** The query of [loadCases]. *)
Abbreviation listQuery forEmail :=
  (Select (js "case_config") (js "id, title, created_at, created_by")
          (js "created_by") forEmail (js "created_at") false).

(** ** ASCII lower-casing

    What [toLowerCase] does to one ASCII code unit; the strings typed as
    identities and identifiers are mostly ASCII. *)
Definition asciiLower (c : N) : N :=
  if (0x41 <=? c) && (c <=? 0x5A) then c + 0x20 else c.

(** A string that starts or ends with white space. *)
Definition startsWithSpace (s : jsstring) : bool :=
  match s with
  | [] => false
  | c :: _ => isWhiteSpace c
  end.

Definition edgeSpace (s : jsstring) : bool :=
  startsWithSpace s || startsWithSpace (List.rev s).

(** ** What the page shows (lines 100-249)

    The part of the returned tree that depends on the state: which screen,
    the values and the [disabled] flags of the controls, their labels, and
    the list with the four links and the delete button of every row. *)

Record RowView : Type := {
  rowTitle : jsstring;
  rowPath : jsstring;
  setupHref : jsstring;
  studentHref : jsstring;
  boardHref : jsstring;
  instructorHref : jsstring;
  deleteDisabled : bool;
  deleteLabel : jsstring
}.

Inductive ListView : Type :=
| Spinner
| NoCases
| CaseList (rows : list RowView).

Inductive View : Type :=
| PromptView (value : jsstring) (continueDisabled : bool)
| DashboardView (who idValue titleValue : jsstring) (createDisabled : bool)
    (createLabel : jsstring) (list : ListView).

(** [deleting === c.id]. *)
Definition isDeleting (marker : option jsstring) (c : CaseRow) : bool :=
  bool_decide (marker = Some (id c)).

Definition rowView (marker : option jsstring) (c : CaseRow) : RowView :=
  {| rowTitle := title c;
     rowPath := js "/" ++ id c;
     setupHref := js "/c/" ++ id c ++ js "/setup";
     studentHref := js "/c/" ++ id c;
     boardHref := js "/c/" ++ id c ++ js "/board";
     instructorHref := js "/c/" ++ id c ++ js "/instructor";
     deleteDisabled := isDeleting marker c;
     deleteLabel := if isDeleting marker c then js "..." else js "Delete" |}.

Definition listView (p : PageState) : ListView :=
  if loading p then Spinner
  else match cases p with
       | [] => NoCases
       | _ :: _ => CaseList (List.map (rowView (deleting p)) (cases p))
       end.

Definition view (p : PageState) : View :=
  match truthyOrNull (email p) with
  | None =>
      PromptView (emailInput p) (negb (truthy (trim (emailInput p))))
  | Some e =>
      DashboardView e (newId p) (newTitle p)
        (negb (truthy (trim (newId p))) || creating p)
        (if creating p then js "..." else js "Create")
        (listView p)
  end.

(** ** The handlers, await by await

    An [async] function runs until its next [await] and is resumed when the
    awaited call is answered; other events of the page may come in between.
    [Await] names the four [await]s of the component with the variables
    that the code after them still reads; [resume] is that code. *)

Inductive Await : Type :=
| AwaitSelect                                       (* line 42, [loadCases] *)
| AwaitInsert (forEmail : jsstring)                 (* line 75, [handleCreate] *)
| AwaitDeleteResponses (caseId forEmail : jsstring) (* line 93, [handleDelete] *)
| AwaitDeleteCase (forEmail : jsstring).            (* line 94, [handleDelete] *)

Inductive Async : Type :=
| Finished
| Pending (request : Call) (point : Await).

(** Send [request] and wait at [point]. *)
Definition await (request : Call) (point : Await) : Action Async :=
  (call request ;; ret (Pending request point))%action.

Section AsyncHomePage.

Variable unicodeLower : list N -> N -> list N -> list N.
Variable env : Env.

Definition loadCasesAsync (forEmail : jsstring) : Action Async :=
  setLoading true ;;
  createClient ;;
  await (listQuery forEmail) AwaitSelect.

Definition emailEffectAsync : Action Async :=
  p <- render ;;
  match truthyOrNull (email p) with
  | Some e => loadCasesAsync e
  | None => ret Finished
  end.

Definition handleCreateAsync : Action Async :=
  p <- render ;;
  call PreventDefault ;;
  match truthyOrNull (email p) with
  | None => ret Finished
  | Some e =>
      let slug := slugOf unicodeLower (newId p) in
      if negb (truthy slug) then ret Finished
      else
        setCreating true ;;
        createClient ;;
        await (Insert (js "case_config")
                 {| new_id := slug;
                    new_title := orElse (trim (newTitle p)) (js "New Case");
                    new_created_by := e |})
              (AwaitInsert e)
  end.

Definition handleDeleteAsync (caseId caseTitle : jsstring) : Action Async :=
  p <- render ;;
  match truthyOrNull (email p) with
  | None => ret Finished
  | Some e =>
      ok <- windowConfirm env (confirmMessage caseTitle) ;;
      if negb ok then ret Finished
      else
        setDeleting (Some caseId) ;;
        createClient ;;
        await (Delete (js "responses") (js "case_id") caseId)
              (AwaitDeleteResponses caseId e)
  end.

(** The code after each [await]; [data] is the [data] of the answer, read
    by [loadCases] only. *)
Definition resume (point : Await) (data : option (list CaseRow)) : Action Async :=
  match point with
  | AwaitSelect =>
      setCases (default [] data) ;;
      setLoading false ;;
      ret Finished
  | AwaitInsert e =>
      setNewId [] ;;
      setNewTitle [] ;;
      setCreating false ;;
      loadCasesAsync e
  | AwaitDeleteResponses caseId e =>
      await (Delete (js "case_config") (js "id") caseId) (AwaitDeleteCase e)
  | AwaitDeleteCase e =>
      setDeleting None ;;
      loadCasesAsync e
  end.

(** The answer of the surroundings [env] to a pending request. *)
Definition answer (request : Call) (lg : list Call) : option (list CaseRow) :=
  match request with
  | Select _ _ _ _ _ _ => selectData env lg
  | _ => None
  end.

(** Answer the pending requests one after the other, nothing in between.
    [fuel] bounds the number of answers; the result tells whether the
    function has finished. *)
Fixpoint complete (fuel : nat) (t : Async) : Action bool :=
  match t with
  | Finished => ret true
  | Pending request point =>
      match fuel with
      | O => ret false
      | S fuel' =>
          fun w =>
            let (t', w') := resume point (answer request (log w)) w in
            complete fuel' t' w'
      end
  end.

(** *** The page as a system: events and answers in any order *)

Inductive Event : Type :=
| Mount                                     (* the page is loaded *)
| ChangeEmailInput (value : jsstring)       (* line 117 *)
| ChangeNewId (value : jsstring)            (* line 167 *)
| ChangeNewTitle (value : jsstring)         (* line 174 *)
| SubmitEmail                               (* line 105 *)
| ClickSwitch                               (* line 144 *)
| SubmitCreate                              (* line 157 *)
| ClickDelete (caseId caseTitle : jsstring) (* line 235 *)
| Answer (n : nat) (data : option (list CaseRow)).
                        (* the [n]th pending request is answered [data] *)

Record System : Type := {
  world : World;
  inflight : list (Call * Await)
}.

Definition pendingOf (t : Async) : list (Call * Await) :=
  match t with
  | Finished => []
  | Pending request point => [(request, point)]
  end.

Definition sync (m : Action unit) : Action Async := m ;; ret Finished.

(** Run [m], then the effect of line 33 when [email] has changed. *)
Definition react (m : Action Async) (s : System) : System :=
  let (t, w1) := m (world s) in
  let (t', w2) :=
    (if decide (email (page w1) = email (page (world s)))
     then ret Finished else emailEffectAsync) w1 in
  {| world := w2; inflight := inflight s ++ pendingOf t ++ pendingOf t' |}.

(** A load of the page: a new component, with the initial state and without
    the pending requests of the old one; [localStorage] stays. *)
Definition reload (s : System) : System :=
  {| world := {| page := initialPage; localStorage := localStorage (world s);
                 log := log (world s) |};
     inflight := [] |}.

Definition fire (ev : Event) (s : System) : System :=
  match ev with
  | Mount => react (sync mountEffect) (reload s)
  | ChangeEmailInput v => react (sync (setEmailInput v)) s
  | ChangeNewId v => react (sync (setNewId v)) s
  | ChangeNewTitle v => react (sync (setNewTitle v)) s
  | SubmitEmail => react (sync (handleEmailSubmit unicodeLower)) s
  | ClickSwitch => react (sync handleSwitch) s
  | SubmitCreate => react handleCreateAsync s
  | ClickDelete caseId caseTitle => react (handleDeleteAsync caseId caseTitle) s
  | Answer n data =>
      match inflight s !! n with
      | None => s
      | Some (_, point) =>
          react (resume point data)
                {| world := world s; inflight := delete n (inflight s) |}
      end
  end.

Definition run (evs : list Event) (s : System) : System :=
  List.fold_left (fun s ev => fire ev s) evs s.

End AsyncHomePage.

(** Before the first load: the given [localStorage], nothing called yet. *)
Definition boot (storage : gmap (list N) (list N)) : System :=
  {| world := {| page := initialPage; localStorage := storage; log := [] |};
     inflight := [] |}.

(** A session: the page is loaded, then events and answers come. *)
Definition session (unicodeLower : list N -> N -> list N -> list N) (env : Env)
    (storage : gmap (list N) (list N)) (evs : list Event) : System :=
  run unicodeLower env evs (fire unicodeLower env Mount (boot storage)).

(** An [async] function run from its call to its end, every [await]
    answered by [env] at once. *)
Definition runToEnd (env : Env) (fuel : nat) (m : Action Async) : Action bool :=
  (t <- m ;; complete env fuel t)%action.

(** ** What holds of every session *)

(** A call as the component makes them: the storage is touched under the
    identity key only and never given an empty identity; a select is the
    list query of a non-empty identity; an insert goes to [case_config] with
    a non-empty slug, a non-empty title without white space around it and a
    non-empty owner; a delete is by [case_id] on [responses] or by [id] on
    [case_config]. *)
Definition wellFormedCall (c : Call) : Prop :=
  match c with
  | PreventDefault | CreateClient | WindowConfirm _ => True
  | GetItem key | RemoveItem key => key = instructor_email
  | SetItem key value => key = instructor_email /\ value <> []
  | Select _ _ _ eqValue _ _ => c = listQuery eqValue /\ eqValue <> []
  | Insert table row =>
      table = js "case_config"
      /\ new_id row <> []
      /\ Forall (fun u => isSlugChar u = true) (new_id row)
      /\ new_title row <> []
      /\ edgeSpace (new_title row) = false
      /\ new_created_by row <> []
  | Delete table eqColumn _ =>
      (table = js "responses" /\ eqColumn = js "case_id")
      \/ (table = js "case_config" /\ eqColumn = js "id")
  end.

(** Wherever the delete of a case stands in a log, the delete of its
    responses stands before it. *)
Definition dependentsFirst (tr : list Call) : Prop :=
  forall before caseId after,
    tr = before ++ Delete (js "case_config") (js "id") caseId :: after ->
    In (Delete (js "responses") (js "case_id") caseId) before.

(** The identity in memory is null, or not empty and the one stored. *)
Definition identityStored (w : World) : Prop :=
  match email (page w) with
  | None => True
  | Some e => e <> [] /\ localStorage w !! instructor_email = Some e
  end.

(** What a pending request may rely on, given the calls made so far. *)
Definition flightOk (lg : list Call) (f : Call * Await) : Prop :=
  match snd f with
  | AwaitSelect => True
  | AwaitInsert e => e <> []
  | AwaitDeleteResponses caseId e =>
      e <> [] /\ In (Delete (js "responses") (js "case_id") caseId) lg
  | AwaitDeleteCase e => e <> []
  end.

Definition worldOk (w : World) : Prop :=
  identityStored w /\ Forall wellFormedCall (log w) /\ dependentsFirst (log w).

Definition systemOk (s : System) : Prop :=
  worldOk (world s) /\ Forall (flightOk (log (world s))) (inflight s).

Module MoreSamples.

(** Signed in as bob, [rawId] and [rawTitle] typed, nothing pending. *)
Definition signedIn (rawId rawTitle : jsstring) : System :=
  {| world := Samples.dashboard rawId rawTitle; inflight := [] |}.

(** Signed in as bob while the list query is still pending. *)
Definition listPending : System :=
  {| world := Samples.dashboard [] [];
     inflight := [(listQuery (js "bob@school.edu"), AwaitSelect)] |}.

(** Nothing under the identity key, something under another key. *)
Definition otherKeyOnly : gmap (list N) (list N) :=
  {[ js "theme" := js "dark" ]}.

End MoreSamples.



(** What an action owes to the invariant: from a good world it leads to a
    good world, only adds calls, and leaves a good pending request. *)
Definition actionOk (m : Action Async) (w : World) : Prop :=
  worldOk w ->
  worldOk (snd (m w))
  /\ (exists new, log (snd (m w)) = log w ++ new)
  /\ Forall (flightOk (log (snd (m w)))) (pendingOf (fst (m w))).

(** ** Properties of the string pipeline *)

Module JsStringFacts.

Lemma isSlugChar_spec (c : N) :
  isSlugChar c = true <->
  (0x61 <= c <= 0x7A) \/ (0x30 <= c <= 0x39) \/ c = 0x2D.
Proof.
  unfold isSlugChar, hyphen.
  rewrite !orb_true_iff, !andb_true_iff, !N.leb_le, N.eqb_eq. tauto.
Qed.

Lemma stripNonSlugChars_Forall (s : jsstring) :
  Forall (fun c => isSlugChar c = true) (stripNonSlugChars s).
Proof.
  unfold stripNonSlugChars. induction s as [|c r IH]; simpl.
  - constructor.
  - destruct (isSlugChar c) eqn:E; [constructor|]; assumption.
Qed.

Lemma truthy_true_iff (s : jsstring) : truthy s = true <-> s <> [].
Proof. destruct s; simpl; split; congruence. Qed.

Lemma truthyOrNull_Some (e : jsstring) :
  e <> [] -> truthyOrNull (Some e) = Some e.
Proof. destruct e; [congruence | reflexivity]. Qed.

Lemma StringToCodePoints_nil (s : jsstring) :
  StringToCodePoints s = [] -> s = [].
Proof.
  destruct s as [|c [|d r]]; simpl; [reflexivity | discriminate |].
  destruct (isLeadingSurrogate c && isTrailingSurrogate d); discriminate.
Qed.

Lemma UTF16EncodeCodePoint_nonempty (cp : N) : UTF16EncodeCodePoint cp <> [].
Proof. unfold UTF16EncodeCodePoint. destruct (cp <=? 0xFFFF); discriminate. Qed.

Lemma CodePointsToString_nil (cps : list N) :
  CodePointsToString cps = [] -> cps = [].
Proof.
  destruct cps as [|cp r]; [reflexivity |]. unfold CodePointsToString. simpl.
  intros H. apply app_eq_nil in H. destruct H as [H _].
  now apply UTF16EncodeCodePoint_nonempty in H.
Qed.

Section LowercaseFacts.

Variable unicodeLower : list N -> N -> list N -> list N.

(** No code point has an empty lower-case mapping. *)
Hypothesis unicodeLower_nonempty : forall before c after,
  unicodeLower before c after <> [].

Lemma lowerCodePoint_nonempty before c after :
  lowerCodePoint unicodeLower before c after <> [].
Proof.
  unfold lowerCodePoint.
  destruct ((0x41 <=? c) && (c <=? 0x5A)); [discriminate |].
  destruct (c <? 0x80); [discriminate | apply unicodeLower_nonempty].
Qed.

Lemma toLowercaseFrom_nil before cps :
  toLowercaseFrom unicodeLower before cps = [] -> cps = [].
Proof.
  destruct cps as [|c after]; [reflexivity |]. simpl. intros H.
  apply app_eq_nil in H. destruct H as [H _].
  now apply lowerCodePoint_nonempty in H.
Qed.

Lemma toLowerCase_nil_iff (s : jsstring) :
  toLowerCase unicodeLower s = [] <-> s = [].
Proof.
  split.
  - unfold toLowerCase. intros H.
    apply CodePointsToString_nil, toLowercaseFrom_nil in H.
    now apply StringToCodePoints_nil.
  - intros ->. reflexivity.
Qed.

End LowercaseFacts.

End JsStringFacts.

Import JsStringFacts.

(** ** Properties of actions *)

Lemma issued_of_log {A} (m : Action A) (w : World) (tr : list Call) :
  log (exec m w) = log w ++ tr -> issued m w = tr.
Proof. unfold issued. intros ->. apply drop_app_length. Qed.


(** ** Slug derivation *)

Section Slug.

Variable unicodeLower : list N -> N -> list N -> list N.

(** C1.  Whatever the raw identifier, every code unit of the slug derived
    by the creation flow is a lower-case letter [a-z], a digit [0-9] or a
    hyphen. *)
Theorem slugOf_charset (raw : jsstring) :
  Forall (fun c => (0x61 <= c <= 0x7A) \/ (0x30 <= c <= 0x39) \/ c = 0x2D)
         (slugOf unicodeLower raw).
Proof.
  unfold slugOf.
  eapply List.Forall_impl; [| apply stripNonSlugChars_Forall].
  intros c Hc. now apply isSlugChar_spec.
Qed.

(** The example of the specification. *)
Example slugOf_skims_case :
  slugOf unicodeLower (js "  SKIMS Case!! ") = js "skims-case".
Proof. reflexivity. Qed.

Example slugOf_symbols : slugOf unicodeLower (js "!!!") = [].
Proof. reflexivity. Qed.

End Slug.

(** ** The handlers, run from any world *)

Section Handlers.

Variable unicodeLower : list N -> N -> list N -> list N.
Variable env : Env.

Lemma loadCases_run (forEmail : jsstring) (w : World) :
  loadCases env forEmail w =
  (tt,
   {| page := {| cases := default [] (selectData env
                            (log w ++ [CreateClient; listQuery forEmail]));
                 newId := newId (page w); newTitle := newTitle (page w);
                 creating := creating (page w); loading := false;
                 email := email (page w); emailInput := emailInput (page w);
                 deleting := deleting (page w) |};
      localStorage := localStorage w;
      log := log w ++ [CreateClient; listQuery forEmail] |}).
Proof.
  unfold loadCases, createClient, select. unfold_actions. simpl.
  flatten_log. reflexivity.
Qed.

Lemma handleCreate_skipped (w : World) :
  truthyOrNull (email (page w)) = None \/
  slugOf unicodeLower (newId (page w)) = [] ->
  exec (handleCreate unicodeLower env) w =
  {| page := page w; localStorage := localStorage w;
     log := log w ++ [PreventDefault] |}.
Proof.
  intros H. unfold handleCreate. unfold_actions. simpl.
  destruct (truthyOrNull (email (page w))) as [e|]; [| reflexivity].
  destruct H as [H | H]; [discriminate |]. rewrite H. reflexivity.
Qed.

Lemma handleCreate_exec (w : World) (e : jsstring) :
  truthyOrNull (email (page w)) = Some e ->
  slugOf unicodeLower (newId (page w)) <> [] ->
  let row := {| new_id := slugOf unicodeLower (newId (page w));
                new_title := orElse (trim (newTitle (page w))) (js "New Case");
                new_created_by := e |} in
  let tr := [PreventDefault; CreateClient; Insert (js "case_config") row;
             CreateClient; listQuery e] in
  exec (handleCreate unicodeLower env) w =
  {| page := {| cases := default [] (selectData env (log w ++ tr));
                newId := []; newTitle := []; creating := false;
                loading := false; email := email (page w);
                emailInput := emailInput (page w);
                deleting := deleting (page w) |};
     localStorage := localStorage w;
     log := log w ++ tr |}.
Proof.
  intros He Hs. apply truthy_true_iff in Hs.
  unfold handleCreate. unfold_actions. simpl. rewrite He, Hs. simpl.
  unfold insert, createClient. unfold_actions. simpl.
  flatten_log. reflexivity.
Qed.

Lemma handleDelete_skipped (caseId caseTitle : jsstring) (w : World) :
  truthyOrNull (email (page w)) = None ->
  exec (handleDelete env caseId caseTitle) w = w.
Proof.
  intros H. unfold handleDelete. unfold_actions. simpl. rewrite H.
  reflexivity.
Qed.

Lemma handleDelete_declined (caseId caseTitle : jsstring) (w : World) (e : jsstring) :
  truthyOrNull (email (page w)) = Some e ->
  userConfirms env (log w ++ [WindowConfirm (confirmMessage caseTitle)]) = false ->
  exec (handleDelete env caseId caseTitle) w =
  {| page := page w; localStorage := localStorage w;
     log := log w ++ [WindowConfirm (confirmMessage caseTitle)] |}.
Proof.
  intros He Hno. unfold handleDelete, windowConfirm. unfold_actions. simpl.
  rewrite He. simpl. rewrite Hno. reflexivity.
Qed.

Lemma handleDelete_exec (caseId caseTitle : jsstring) (w : World) (e : jsstring) :
  truthyOrNull (email (page w)) = Some e ->
  userConfirms env (log w ++ [WindowConfirm (confirmMessage caseTitle)]) = true ->
  let tr := [WindowConfirm (confirmMessage caseTitle); CreateClient;
             Delete (js "responses") (js "case_id") caseId;
             Delete (js "case_config") (js "id") caseId;
             CreateClient; listQuery e] in
  exec (handleDelete env caseId caseTitle) w =
  {| page := {| cases := default [] (selectData env (log w ++ tr));
                newId := newId (page w); newTitle := newTitle (page w);
                creating := creating (page w); loading := false;
                email := email (page w); emailInput := emailInput (page w);
                deleting := None |};
     localStorage := localStorage w;
     log := log w ++ tr |}.
Proof.
  intros He Hyes. unfold handleDelete, windowConfirm. unfold_actions. simpl.
  rewrite He. simpl. rewrite Hyes. simpl.
  unfold deleteEq, createClient. unfold_actions. simpl.
  flatten_log. reflexivity.
Qed.

(** Whatever the state and the answers, a deletion sends either nothing or
    the two deletes, dependents first, and then the reload. *)
Lemma handleDelete_remote_calls (caseId caseTitle : jsstring) (w : World) :
  remoteCalls (issued (handleDelete env caseId caseTitle) w) = []
  \/ exists e,
       remoteCalls (issued (handleDelete env caseId caseTitle) w) =
         [Delete (js "responses") (js "case_id") caseId;
          Delete (js "case_config") (js "id") caseId;
          listQuery e].
Proof.
  destruct (truthyOrNull (email (page w))) as [e|] eqn:Ht.
  - destruct (userConfirms env (log w ++ [WindowConfirm (confirmMessage caseTitle)]))
      eqn:Hans.
    + right. exists e.
      assert (Hexec := handleDelete_exec caseId caseTitle w e Ht Hans).
      cbv zeta in Hexec.
      erewrite issued_of_log by (rewrite Hexec; reflexivity). reflexivity.
    + left.
      assert (Hexec := handleDelete_declined caseId caseTitle w e Ht Hans).
      erewrite issued_of_log by (rewrite Hexec; reflexivity). reflexivity.
  - left.
    assert (Hexec := handleDelete_skipped caseId caseTitle w Ht).
    erewrite issued_of_log by (rewrite Hexec; symmetry; apply app_nil_r).
    reflexivity.
Qed.

End Handlers.

(** ** The listing *)

Section Listing.

Variable env : Env.

(** C8.  For every identity, [loadCases] asks the table [case_config] for
    the columns [id, title, created_at, created_by] of the rows whose
    [created_by] is that identity, by [created_at] descending; when the
    answer is there, the list in memory is the rows answered, or the empty
    list when none is answered, and [loading] is false.  Nothing else of
    the page and nothing of the storage changes. *)
Theorem loadCases_query_and_result (forEmail : jsstring) (w : World) :
  issued (loadCases env forEmail) w =
    [CreateClient;
     Select (js "case_config") (js "id, title, created_at, created_by")
            (js "created_by") forEmail (js "created_at") false]
  /\ remoteCalls (issued (loadCases env forEmail) w) =
    [Select (js "case_config") (js "id, title, created_at, created_by")
            (js "created_by") forEmail (js "created_at") false]
  /\ cases (page (exec (loadCases env forEmail) w)) =
    match selectData env (log (exec (loadCases env forEmail) w)) with
    | Some rows => rows
    | None => []
    end
  /\ loading (page (exec (loadCases env forEmail) w)) = false
  /\ page (exec (loadCases env forEmail) w) =
    {| cases := cases (page (exec (loadCases env forEmail) w));
       newId := newId (page w); newTitle := newTitle (page w);
       creating := creating (page w); loading := false;
       email := email (page w); emailInput := emailInput (page w);
       deleting := deleting (page w) |}
  /\ localStorage (exec (loadCases env forEmail) w) = localStorage w.
Proof.
  assert (Hlog : log (exec (loadCases env forEmail) w)
                 = log w ++ [CreateClient; listQuery forEmail])
    by (unfold exec; rewrite loadCases_run; reflexivity).
  assert (Hiss := issued_of_log _ _ _ Hlog).
  rewrite Hiss. split; [reflexivity |]. split; [reflexivity |].
  rewrite Hlog. unfold exec. rewrite loadCases_run. simpl.
  repeat split.
Qed.

End Listing.

(** ** The identity gate *)

(** When nothing is stored, the first effect leaves the initial state with
    [loading] cleared: the state called [preIdentityPage]. *)
Lemma mountEffect_no_identity (w : World) :
  localStorage w !! instructor_email = None ->
  page w = initialPage ->
  page (exec mountEffect w) = preIdentityPage.
Proof.
  intros Hnone Hinit. unfold mountEffect. unfold_actions. simpl.
  rewrite Hnone, Hinit. reflexivity.
Qed.

(** C10.  At the first render, a non-empty string stored under the identity
    key becomes the identity as it is: it is neither trimmed nor lower-cased
    nor checked.  The rest of the page and the storage are unchanged, and the
    storage is only read. *)
Theorem mountEffect_adopts_verbatim (w : World) (stored : jsstring) :
  localStorage w !! instructor_email = Some stored ->
  stored <> [] ->
  email (page (exec mountEffect w)) = Some stored
  /\ page (exec mountEffect w) =
       {| cases := cases (page w); newId := newId (page w);
          newTitle := newTitle (page w); creating := creating (page w);
          loading := loading (page w); email := Some stored;
          emailInput := emailInput (page w); deleting := deleting (page w) |}
  /\ localStorage (exec mountEffect w) = localStorage w
  /\ issued mountEffect w = [GetItem instructor_email].
Proof.
  intros Hsome Hne.
  assert (Hexec : exec mountEffect w =
    {| page := {| cases := cases (page w); newId := newId (page w);
          newTitle := newTitle (page w); creating := creating (page w);
          loading := loading (page w); email := Some stored;
          emailInput := emailInput (page w); deleting := deleting (page w) |};
       localStorage := localStorage w;
       log := log w ++ [GetItem instructor_email] |}).
  { unfold mountEffect. unfold_actions. simpl. rewrite Hsome.
    rewrite (truthyOrNull_Some _ Hne). reflexivity. }
  split; [| split; [| split]].
  - rewrite Hexec. reflexivity.
  - rewrite Hexec. reflexivity.
  - rewrite Hexec. reflexivity.
  - apply issued_of_log. rewrite Hexec. reflexivity.
Qed.

(** A stored identity with spaces and capitals is adopted with them. *)
Lemma mountEffect_adopts_verbatim_witness :
  email (page (exec mountEffect (Samples.firstRender (js " Bob@School.EDU ")))) =
    Some (js " Bob@School.EDU ")
  /\ page (exec mountEffect (Samples.firstRender (js " Bob@School.EDU "))) =
       {| cases := []; newId := []; newTitle := []; creating := false;
          loading := true; email := Some (js " Bob@School.EDU ");
          emailInput := []; deleting := None |}
  /\ localStorage (exec mountEffect (Samples.firstRender (js " Bob@School.EDU "))) =
       {[ instructor_email := js " Bob@School.EDU " ]}
  /\ issued mountEffect (Samples.firstRender (js " Bob@School.EDU ")) =
       [GetItem instructor_email].
Proof.
  apply (mountEffect_adopts_verbatim
           (Samples.firstRender (js " Bob@School.EDU ")) (js " Bob@School.EDU ")).
  - apply lookup_singleton_eq.
  - discriminate.
Defined.

(** C5 as amended.  From any state, [handleSwitch] removes the identity key
    from the storage (the other keys stay) and sets the identity to null, the
    field of the capture form to the empty string, the case list to the empty
    list and the loading flag to false, so that the capture form is shown.
    The two fields of the creation form, the creating flag and the deleting
    marker keep their values. *)
Theorem handleSwitch_resets (w : World) :
  localStorage (exec handleSwitch w) = delete instructor_email (localStorage w)
  /\ localStorage (exec handleSwitch w) !! instructor_email = None
  /\ page (exec handleSwitch w) =
       {| cases := []; newId := newId (page w); newTitle := newTitle (page w);
          creating := creating (page w); loading := false; email := None;
          emailInput := []; deleting := deleting (page w) |}
  /\ screen (page (exec handleSwitch w)) = EmailPrompt
  /\ issued handleSwitch w = [RemoveItem instructor_email].
Proof.
  unfold handleSwitch. unfold_actions. simpl.
  split; [reflexivity |]. split; [apply lookup_delete_eq |].
  split; [reflexivity |]. split; [reflexivity |].
  apply issued_of_log. reflexivity.
Qed.

(** C5 as stated fails: a case identifier typed in the creation form is
    still there after the switch. *)
Lemma handleSwitch_keeps_creation_fields :
  newId (page (exec handleSwitch (Samples.dashboard (js "skims") (js "Skims")))) = js "skims"
  /\ ~ switchResetsAll (Samples.dashboard (js "skims") (js "Skims")).
Proof.
  split; [reflexivity |].
  unfold switchResetsAll. intros (_ & _ & _ & _ & H & _).
  discriminate H.
Qed.

Section Capture.

Variable unicodeLower : list N -> N -> list N -> list N.
Hypothesis unicodeLower_nonempty : forall before c after,
  unicodeLower before c after <> [].

(** C6.  Submitting the capture form: when the trimmed input is empty
    (empty or white space only), the page and the storage stay as they
    are and the storage is not called; otherwise the trimmed, lower-cased
    input, which is not empty, is stored under [instructor_email] and
    becomes the identity, the rest of the page unchanged, and the dashboard
    is shown. *)
Theorem handleEmailSubmit_normalises (w : World) :
  match trim (emailInput (page w)) with
  | [] =>
      page (exec (handleEmailSubmit unicodeLower) w) = page w
      /\ localStorage (exec (handleEmailSubmit unicodeLower) w) = localStorage w
      /\ issued (handleEmailSubmit unicodeLower) w = [PreventDefault]
  | _ :: _ =>
      toLowerCase unicodeLower (trim (emailInput (page w))) <> []
      /\ localStorage (exec (handleEmailSubmit unicodeLower) w) =
           <[ instructor_email :=
                toLowerCase unicodeLower (trim (emailInput (page w))) ]>
             (localStorage w)
      /\ email (page (exec (handleEmailSubmit unicodeLower) w)) =
           Some (toLowerCase unicodeLower (trim (emailInput (page w))))
      /\ page (exec (handleEmailSubmit unicodeLower) w) =
           {| cases := cases (page w); newId := newId (page w);
              newTitle := newTitle (page w); creating := creating (page w);
              loading := loading (page w);
              email := Some (toLowerCase unicodeLower (trim (emailInput (page w))));
              emailInput := emailInput (page w);
              deleting := deleting (page w) |}
      /\ screen (page (exec (handleEmailSubmit unicodeLower) w)) = Dashboard
      /\ issued (handleEmailSubmit unicodeLower) w =
           [PreventDefault;
            SetItem instructor_email
              (toLowerCase unicodeLower (trim (emailInput (page w))))]
  end.
Proof.
  destruct (trim (emailInput (page w))) as [|c r] eqn:Htrim.
  - assert (Hexec : exec (handleEmailSubmit unicodeLower) w =
      {| page := page w; localStorage := localStorage w;
         log := log w ++ [PreventDefault] |}).
    { unfold handleEmailSubmit. unfold_actions. simpl. rewrite Htrim.
      reflexivity. }
    split; [| split].
    + rewrite Hexec. reflexivity.
    + rewrite Hexec. reflexivity.
    + apply issued_of_log. rewrite Hexec. reflexivity.
  - assert (Hne : toLowerCase unicodeLower (c :: r) <> []).
    { intros H.
      destruct (toLowerCase_nil_iff _ unicodeLower_nonempty (c :: r)) as [Hl _].
      specialize (Hl H). discriminate Hl. }
    split; [exact Hne |].
    assert (Hexec : exec (handleEmailSubmit unicodeLower) w =
      {| page := {| cases := cases (page w); newId := newId (page w);
              newTitle := newTitle (page w); creating := creating (page w);
              loading := loading (page w);
              email := Some (toLowerCase unicodeLower (c :: r));
              emailInput := emailInput (page w);
              deleting := deleting (page w) |};
         localStorage := <[ instructor_email := toLowerCase unicodeLower (c :: r) ]>
                           (localStorage w);
         log := log w ++ [PreventDefault;
                          SetItem instructor_email (toLowerCase unicodeLower (c :: r))] |}).
    { apply truthy_true_iff in Hne.
      unfold handleEmailSubmit. unfold_actions. simpl. rewrite Htrim, Hne.
      simpl. flatten_log. reflexivity. }
    split; [| split; [| split; [| split]]].
    + rewrite Hexec. reflexivity.
    + rewrite Hexec. reflexivity.
    + rewrite Hexec. reflexivity.
    + rewrite Hexec. unfold screen. simpl.
      destruct (toLowerCase unicodeLower (c :: r)); [congruence | reflexivity].
    + apply issued_of_log. rewrite Hexec. reflexivity.
Qed.

End Capture.

(** White space alone is refused; [ Bob@School.EDU ] is stored and adopted
    as [bob@school.edu]. *)
Lemma handleEmailSubmit_normalises_witness :
  (page (exec (handleEmailSubmit Samples.latin1Lower) (Samples.capture (js "   "))) =
     page (Samples.capture (js "   "))
   /\ localStorage (exec (handleEmailSubmit Samples.latin1Lower) (Samples.capture (js "   "))) = ∅
   /\ issued (handleEmailSubmit Samples.latin1Lower) (Samples.capture (js "   ")) =
        [PreventDefault])
  /\ (js "bob@school.edu" <> []
      /\ localStorage (exec (handleEmailSubmit Samples.latin1Lower)
                         (Samples.capture (js " Bob@School.EDU "))) =
           <[ instructor_email := js "bob@school.edu" ]> ∅
      /\ email (page (exec (handleEmailSubmit Samples.latin1Lower)
                         (Samples.capture (js " Bob@School.EDU ")))) =
           Some (js "bob@school.edu")
      /\ page (exec (handleEmailSubmit Samples.latin1Lower)
                  (Samples.capture (js " Bob@School.EDU "))) =
           {| cases := []; newId := []; newTitle := []; creating := false;
              loading := false; email := Some (js "bob@school.edu");
              emailInput := js " Bob@School.EDU "; deleting := None |}
      /\ screen (page (exec (handleEmailSubmit Samples.latin1Lower)
                            (Samples.capture (js " Bob@School.EDU ")))) = Dashboard
      /\ issued (handleEmailSubmit Samples.latin1Lower)
                (Samples.capture (js " Bob@School.EDU ")) =
           [PreventDefault; SetItem instructor_email (js "bob@school.edu")]).
Proof.
  assert (Hlow : forall before c after, Samples.latin1Lower before c after <> []).
  { intros before c after. unfold Samples.latin1Lower.
    destruct ((0xC0 <=? c) && (c <=? 0xDE) && negb (c =? 0xD7)); [discriminate |].
    destruct (c =? 0x212A); discriminate. }
  split.
  - exact (handleEmailSubmit_normalises Samples.latin1Lower Hlow
             (Samples.capture (js "   "))).
  - exact (handleEmailSubmit_normalises Samples.latin1Lower Hlow
             (Samples.capture (js " Bob@School.EDU "))).
Defined.

(** The adopted identity and the captured one differ for the same text: only
    the capture form normalises. *)
Lemma stored_identity_not_normalised :
  email (page (exec mountEffect (Samples.firstRender (js " Bob@School.EDU "))))
  <> email (page (exec (handleEmailSubmit Samples.latin1Lower)
                       (Samples.capture (js " Bob@School.EDU ")))).
Proof. discriminate. Qed.

(** ** Creation *)

Section Creation.

Variable unicodeLower : list N -> N -> list N -> list N.
Variable env : Env.

(** C2.  When the slug derived from the identifier field is empty, the
    creation does nothing: the page and the storage are unchanged, the
    only call is [preventDefault] on the submit event, and nothing is sent
    to the remote store (no insert, no reload). *)
Theorem handleCreate_empty_slug_noop (w : World) :
  slugOf unicodeLower (newId (page w)) = [] ->
  page (exec (handleCreate unicodeLower env) w) = page w
  /\ localStorage (exec (handleCreate unicodeLower env) w) = localStorage w
  /\ issued (handleCreate unicodeLower env) w = [PreventDefault]
  /\ remoteCalls (issued (handleCreate unicodeLower env) w) = [].
Proof.
  intros Hslug.
  assert (Hexec := handleCreate_skipped unicodeLower env w (or_intror Hslug)).
  assert (Hiss : issued (handleCreate unicodeLower env) w = [PreventDefault])
    by (apply issued_of_log; rewrite Hexec; reflexivity).
  rewrite Hiss, Hexec. repeat split.
Qed.

(** C7.  With an identity and a non-empty derived slug, the creation
    inserts exactly one row, into [case_config]: its [id] is the slug, its
    [title] is the trimmed title field, or [New Case] when that is empty,
    and its [created_by] is the identity. *)
Theorem handleCreate_inserts_one_row (w : World) (e : jsstring) :
  email (page w) = Some e ->
  e <> [] ->
  slugOf unicodeLower (newId (page w)) <> [] ->
  List.filter isInsert (issued (handleCreate unicodeLower env) w) =
    [Insert (js "case_config")
       {| new_id := slugOf unicodeLower (newId (page w));
          new_title := match trim (newTitle (page w)) with
                       | [] => js "New Case"
                       | t => t
                       end;
          new_created_by := e |}]
  /\ remoteCalls (issued (handleCreate unicodeLower env) w) =
    [Insert (js "case_config")
       {| new_id := slugOf unicodeLower (newId (page w));
          new_title := match trim (newTitle (page w)) with
                       | [] => js "New Case"
                       | t => t
                       end;
          new_created_by := e |};
     Select (js "case_config") (js "id, title, created_at, created_by")
            (js "created_by") e (js "created_at") false].
Proof.
  intros He Hne Hslug.
  assert (Ht : truthyOrNull (email (page w)) = Some e)
    by (rewrite He; apply truthyOrNull_Some, Hne).
  assert (Hexec := handleCreate_exec unicodeLower env w e Ht Hslug).
  cbv zeta in Hexec.
  assert (Htitle : orElse (trim (newTitle (page w))) (js "New Case") =
                   match trim (newTitle (page w)) with
                   | [] => js "New Case"
                   | t => t
                   end)
    by (unfold orElse; destruct (trim (newTitle (page w))); reflexivity).
  rewrite Htitle in Hexec.
  erewrite issued_of_log by (rewrite Hexec; reflexivity).
  split; reflexivity.
Qed.

End Creation.

Lemma handleCreate_empty_slug_noop_witness :
  page (exec (handleCreate Samples.latin1Lower Samples.agreeing)
             (Samples.dashboard (js "!!!") (js "Skims"))) =
    page (Samples.dashboard (js "!!!") (js "Skims"))
  /\ localStorage (exec (handleCreate Samples.latin1Lower Samples.agreeing)
                        (Samples.dashboard (js "!!!") (js "Skims"))) =
    localStorage (Samples.dashboard (js "!!!") (js "Skims"))
  /\ issued (handleCreate Samples.latin1Lower Samples.agreeing)
            (Samples.dashboard (js "!!!") (js "Skims")) = [PreventDefault]
  /\ remoteCalls (issued (handleCreate Samples.latin1Lower Samples.agreeing)
                         (Samples.dashboard (js "!!!") (js "Skims"))) = [].
Proof.
  exact (handleCreate_empty_slug_noop Samples.latin1Lower Samples.agreeing
           (Samples.dashboard (js "!!!") (js "Skims")) eq_refl).
Defined.

Lemma handleCreate_inserts_one_row_witness :
  List.filter isInsert
    (issued (handleCreate Samples.latin1Lower Samples.agreeing)
            (Samples.dashboard (js "  SKIMS Case!! ") (js "   "))) =
    [Insert (js "case_config")
       {| new_id := js "skims-case"; new_title := js "New Case";
          new_created_by := js "bob@school.edu" |}]
  /\ remoteCalls
       (issued (handleCreate Samples.latin1Lower Samples.agreeing)
               (Samples.dashboard (js "  SKIMS Case!! ") (js "   "))) =
    [Insert (js "case_config")
       {| new_id := js "skims-case"; new_title := js "New Case";
          new_created_by := js "bob@school.edu" |};
     Select (js "case_config") (js "id, title, created_at, created_by")
            (js "created_by") (js "bob@school.edu") (js "created_at") false].
Proof.
  refine (handleCreate_inserts_one_row Samples.latin1Lower Samples.agreeing
            (Samples.dashboard (js "  SKIMS Case!! ") (js "   "))
            (js "bob@school.edu") eq_refl _ _); discriminate.
Defined.

(** ** Deletion *)

Section Deletion.

Variable env : Env.

(** C3.  For every case, a confirmed deletion first deletes the rows of
    [responses] whose [case_id] is the case, then the row of [case_config]
    whose [id] is the case, then reloads the list; wherever the delete of
    the case stands among the calls, the delete of its responses stands
    before it, and never after it. *)
Theorem handleDelete_dependents_first (caseId caseTitle : jsstring)
    (w : World) (e : jsstring) :
  email (page w) = Some e ->
  e <> [] ->
  userConfirms env (log w ++ [WindowConfirm (confirmMessage caseTitle)]) = true ->
  remoteCalls (issued (handleDelete env caseId caseTitle) w) =
    [Delete (js "responses") (js "case_id") caseId;
     Delete (js "case_config") (js "id") caseId;
     Select (js "case_config") (js "id, title, created_at, created_by")
            (js "created_by") e (js "created_at") false]
  /\ (forall before after,
        issued (handleDelete env caseId caseTitle) w =
          before ++ Delete (js "case_config") (js "id") caseId :: after ->
        In (Delete (js "responses") (js "case_id") caseId) before
        /\ ~ In (Delete (js "responses") (js "case_id") caseId) after).
Proof.
  intros He Hne Hyes.
  assert (Ht : truthyOrNull (email (page w)) = Some e)
    by (rewrite He; apply truthyOrNull_Some, Hne).
  assert (Hexec := handleDelete_exec env caseId caseTitle w e Ht Hyes).
  cbv zeta in Hexec.
  erewrite issued_of_log by (rewrite Hexec; reflexivity).
  split; [reflexivity |].
  intros before after Heq.
  destruct before as [|c0 [|c1 [|c2 [|c3 [|c4 [|c5 [|c6 before]]]]]]];
    simpl in Heq; try discriminate Heq.
  injection Heq as <- <- <- <-.
  split.
  - right. right. left. reflexivity.
  - simpl. intros [H | [H | []]]; discriminate H.
Qed.

(** C4.  When the user declines the prompt, the deletion sends nothing to
    the remote store and leaves the page (case list, deleting marker,
    loading flag and the rest) and the storage as they were. *)
Theorem handleDelete_declined_noop (caseId caseTitle : jsstring) (w : World) :
  userConfirms env (log w ++ [WindowConfirm (confirmMessage caseTitle)]) = false ->
  page (exec (handleDelete env caseId caseTitle) w) = page w
  /\ localStorage (exec (handleDelete env caseId caseTitle) w) = localStorage w
  /\ remoteCalls (issued (handleDelete env caseId caseTitle) w) = []
  /\ (issued (handleDelete env caseId caseTitle) w = []
      \/ issued (handleDelete env caseId caseTitle) w =
           [WindowConfirm (confirmMessage caseTitle)]).
Proof.
  intros Hno.
  destruct (truthyOrNull (email (page w))) as [e|] eqn:Ht.
  - assert (Hexec := handleDelete_declined env caseId caseTitle w e Ht Hno).
    erewrite issued_of_log by (rewrite Hexec; reflexivity).
    rewrite Hexec. repeat split. right. reflexivity.
  - assert (Hexec := handleDelete_skipped env caseId caseTitle w Ht).
    erewrite issued_of_log by (rewrite Hexec; symmetry; apply app_nil_r).
    rewrite Hexec. repeat split. left. reflexivity.
Qed.

End Deletion.

Lemma handleDelete_dependents_first_witness :
  remoteCalls (issued (handleDelete Samples.agreeing (js "skims") (js "Skims"))
                      (Samples.dashboard [] [])) =
    [Delete (js "responses") (js "case_id") (js "skims");
     Delete (js "case_config") (js "id") (js "skims");
     Select (js "case_config") (js "id, title, created_at, created_by")
            (js "created_by") (js "bob@school.edu") (js "created_at") false]
  /\ (forall before after,
        issued (handleDelete Samples.agreeing (js "skims") (js "Skims"))
               (Samples.dashboard [] []) =
          before ++ Delete (js "case_config") (js "id") (js "skims") :: after ->
        In (Delete (js "responses") (js "case_id") (js "skims")) before
        /\ ~ In (Delete (js "responses") (js "case_id") (js "skims")) after).
Proof.
  refine (handleDelete_dependents_first Samples.agreeing (js "skims") (js "Skims")
            (Samples.dashboard [] []) (js "bob@school.edu") eq_refl _ eq_refl).
  discriminate.
Defined.

Lemma handleDelete_declined_noop_witness :
  page (exec (handleDelete Samples.declining (js "skims") (js "Skims"))
             (Samples.dashboard [] [])) = page (Samples.dashboard [] [])
  /\ localStorage (exec (handleDelete Samples.declining (js "skims") (js "Skims"))
                        (Samples.dashboard [] [])) =
       localStorage (Samples.dashboard [] [])
  /\ remoteCalls (issued (handleDelete Samples.declining (js "skims") (js "Skims"))
                         (Samples.dashboard [] [])) = []
  /\ (issued (handleDelete Samples.declining (js "skims") (js "Skims"))
             (Samples.dashboard [] []) = []
      \/ issued (handleDelete Samples.declining (js "skims") (js "Skims"))
                (Samples.dashboard [] []) =
           [WindowConfirm (confirmMessage (js "Skims"))]).
Proof.
  exact (handleDelete_declined_noop Samples.declining (js "skims") (js "Skims")
           (Samples.dashboard [] []) eq_refl).
Defined.

(** ** Without an identity *)

Section NoIdentity.

Variable unicodeLower : list N -> N -> list N -> list N.
Variable env : Env.

(** C9.  While the identity is null, creation and deletion send nothing
    to the remote store and leave the page and the storage as they were,
    whatever the fields and the arguments: creation only calls
    [preventDefault] on its event, deletion calls nothing and does not
    even prompt. *)
Theorem no_identity_create_delete_noop (caseId caseTitle : jsstring) (w : World) :
  email (page w) = None ->
  (page (exec (handleCreate unicodeLower env) w) = page w
   /\ localStorage (exec (handleCreate unicodeLower env) w) = localStorage w
   /\ issued (handleCreate unicodeLower env) w = [PreventDefault]
   /\ remoteCalls (issued (handleCreate unicodeLower env) w) = [])
  /\ (exec (handleDelete env caseId caseTitle) w = w
      /\ issued (handleDelete env caseId caseTitle) w = []
      /\ remoteCalls (issued (handleDelete env caseId caseTitle) w) = []).
Proof.
  intros He.
  assert (Ht : truthyOrNull (email (page w)) = None) by (rewrite He; reflexivity).
  split.
  - assert (Hexec := handleCreate_skipped unicodeLower env w (or_introl Ht)).
    erewrite issued_of_log by (rewrite Hexec; reflexivity).
    rewrite Hexec. repeat split.
  - assert (Hexec := handleDelete_skipped env caseId caseTitle w Ht).
    erewrite issued_of_log by (rewrite Hexec; symmetry; apply app_nil_r).
    rewrite Hexec. repeat split.
Qed.

End NoIdentity.

Lemma no_identity_create_delete_noop_witness :
  (page (exec (handleCreate Samples.latin1Lower Samples.agreeing)
              (Samples.signedOut (js "skims") (js "Skims"))) =
     page (Samples.signedOut (js "skims") (js "Skims"))
   /\ localStorage (exec (handleCreate Samples.latin1Lower Samples.agreeing)
                         (Samples.signedOut (js "skims") (js "Skims"))) =
        localStorage (Samples.signedOut (js "skims") (js "Skims"))
   /\ issued (handleCreate Samples.latin1Lower Samples.agreeing)
             (Samples.signedOut (js "skims") (js "Skims")) = [PreventDefault]
   /\ remoteCalls (issued (handleCreate Samples.latin1Lower Samples.agreeing)
                          (Samples.signedOut (js "skims") (js "Skims"))) = [])
  /\ (exec (handleDelete Samples.agreeing (js "skims") (js "Skims"))
           (Samples.signedOut (js "skims") (js "Skims")) =
        Samples.signedOut (js "skims") (js "Skims")
      /\ issued (handleDelete Samples.agreeing (js "skims") (js "Skims"))
                (Samples.signedOut (js "skims") (js "Skims")) = []
      /\ remoteCalls
           (issued (handleDelete Samples.agreeing (js "skims") (js "Skims"))
                   (Samples.signedOut (js "skims") (js "Skims"))) = []).
Proof.
  exact (no_identity_create_delete_noop Samples.latin1Lower Samples.agreeing
           (js "skims") (js "Skims")
           (Samples.signedOut (js "skims") (js "Skims")) eq_refl).
Defined.

(** ** More on the string pipeline *)

Module TrimFacts.

Lemma trimStart_nil_iff (s : jsstring) :
  trimStart s = [] <-> forallb isWhiteSpace s = true.
Proof.
  induction s as [|c r IH]; simpl; [tauto |].
  destruct (isWhiteSpace c); simpl; [exact IH |].
  split; discriminate.
Qed.

Lemma trimStart_app_cons (l : jsstring) (c : N) (t : jsstring) :
  isWhiteSpace c = false ->
  trimStart (l ++ c :: t) = trimStart l ++ c :: t.
Proof.
  intros Hc. induction l as [|d l IH]; simpl.
  - rewrite Hc. reflexivity.
  - destruct (isWhiteSpace d); [exact IH | reflexivity].
Qed.

Lemma trimStart_idem (s : jsstring) : trimStart (trimStart s) = trimStart s.
Proof.
  induction s as [|c r IH]; simpl; [reflexivity |].
  destruct (isWhiteSpace c) eqn:Hc; [exact IH |]. simpl. rewrite Hc. reflexivity.
Qed.

Lemma trimStart_head (s : jsstring) (c : N) (r : jsstring) :
  trimStart s = c :: r -> isWhiteSpace c = false.
Proof.
  induction s as [|d s IH]; simpl; [discriminate |].
  destruct (isWhiteSpace d) eqn:Hd; [exact IH |].
  intros H. injection H as <- _. exact Hd.
Qed.

Lemma trimEnd_nil : trimEnd [] = [].
Proof. reflexivity. Qed.

Lemma trimEnd_cons (c : N) (r : jsstring) :
  isWhiteSpace c = false -> trimEnd (c :: r) = c :: trimEnd r.
Proof.
  intros Hc. unfold trimEnd. simpl.
  rewrite (trimStart_app_cons (List.rev r) c [] Hc).
  rewrite List.rev_app_distr. reflexivity.
Qed.

Lemma trimEnd_idem (s : jsstring) : trimEnd (trimEnd s) = trimEnd s.
Proof.
  unfold trimEnd. rewrite List.rev_involutive, trimStart_idem. reflexivity.
Qed.

(** [trim] keeps the first code unit that is not white space and trims the
    end of what follows it. *)
Lemma trim_unfold (s : jsstring) :
  trim s = match trimStart s with
           | [] => []
           | c :: r => c :: trimEnd r
           end.
Proof.
  unfold trim. destruct (trimStart s) as [|c r] eqn:E; [reflexivity |].
  apply trimEnd_cons. exact (trimStart_head s c r E).
Qed.

Lemma trim_nil_iff (s : jsstring) :
  trim s = [] <-> forallb isWhiteSpace s = true.
Proof.
  rewrite trim_unfold, <- trimStart_nil_iff.
  destruct (trimStart s); split; congruence.
Qed.

Lemma trim_idem (s : jsstring) : trim (trim s) = trim s.
Proof.
  rewrite (trim_unfold s). destruct (trimStart s) as [|c r] eqn:E; [reflexivity |].
  assert (Hc := trimStart_head s c r E).
  rewrite trim_unfold. simpl. rewrite Hc. rewrite trimEnd_idem. reflexivity.
Qed.

Lemma trimStart_no_space (s : jsstring) :
  Forall (fun c => isWhiteSpace c = false) s -> trimStart s = s.
Proof. intros [|c r Hc _]; simpl; [| rewrite Hc]; reflexivity. Qed.

Lemma trim_no_space (s : jsstring) :
  Forall (fun c => isWhiteSpace c = false) s -> trim s = s.
Proof.
  intros H. unfold trim, trimEnd. rewrite (trimStart_no_space s H).
  rewrite trimStart_no_space by (apply List.Forall_rev; exact H).
  apply List.rev_involutive.
Qed.

Lemma trimStart_map (f : N -> N) (s : jsstring) :
  (forall c, isWhiteSpace (f c) = isWhiteSpace c) ->
  trimStart (List.map f s) = List.map f (trimStart s).
Proof.
  intros Hf. induction s as [|c r IH]; simpl; [reflexivity |].
  rewrite Hf. destruct (isWhiteSpace c); [exact IH | reflexivity].
Qed.

Lemma trim_map (f : N -> N) (s : jsstring) :
  (forall c, isWhiteSpace (f c) = isWhiteSpace c) ->
  trim (List.map f s) = List.map f (trim s).
Proof.
  intros Hf. unfold trim, trimEnd.
  rewrite (trimStart_map f s Hf), <- List.map_rev, (trimStart_map f _ Hf).
  rewrite List.map_rev. reflexivity.
Qed.

End TrimFacts.

Import TrimFacts.

Module AsciiFacts.

Lemma isSlugChar_not_space (c : N) :
  isSlugChar c = true -> isWhiteSpace c = false.
Proof.
  intros H. apply isSlugChar_spec in H. unfold isWhiteSpace.
  rewrite !orb_false_iff, !andb_false_iff, !N.leb_gt, !N.eqb_neq. lia.
Qed.

Lemma isSlugChar_asciiLower (c : N) : isSlugChar c = true -> asciiLower c = c.
Proof.
  intros H. apply isSlugChar_spec in H. unfold asciiLower.
  destruct ((0x41 <=? c) && (c <=? 0x5A)) eqn:E; [| reflexivity].
  apply andb_true_iff in E. rewrite !N.leb_le in E. lia.
Qed.

Lemma isSlugChar_ascii (c : N) : isSlugChar c = true -> c < 0x80.
Proof. intros H. apply isSlugChar_spec in H. lia. Qed.

Lemma asciiLower_space (c : N) : isWhiteSpace (asciiLower c) = isWhiteSpace c.
Proof.
  unfold asciiLower.
  destruct ((0x41 <=? c) && (c <=? 0x5A)) eqn:E; [| reflexivity].
  apply andb_true_iff in E. rewrite !N.leb_le in E.
  transitivity false; [| symmetry]; unfold isWhiteSpace;
    rewrite !orb_false_iff, !andb_false_iff, !N.leb_gt, !N.eqb_neq; lia.
Qed.

Lemma asciiLower_idem (c : N) : asciiLower (asciiLower c) = asciiLower c.
Proof.
  destruct ((0x41 <=? c) && (c <=? 0x5A)) eqn:E.
  - assert (Hc : asciiLower c = c + 0x20) by (unfold asciiLower; rewrite E; reflexivity).
    rewrite Hc. apply andb_true_iff in E. rewrite !N.leb_le in E.
    unfold asciiLower.
    destruct ((0x41 <=? c + 0x20) && (c + 0x20 <=? 0x5A)) eqn:E'; [| reflexivity].
    apply andb_true_iff in E'. rewrite !N.leb_le in E'. lia.
  - assert (Hc : asciiLower c = c) by (unfold asciiLower; rewrite E; reflexivity).
    rewrite !Hc. reflexivity.
Qed.

Lemma asciiLower_ascii (c : N) : c < 0x80 -> asciiLower c < 0x80.
Proof.
  intros H. unfold asciiLower.
  destruct ((0x41 <=? c) && (c <=? 0x5A)) eqn:E; [| exact H].
  apply andb_true_iff in E. rewrite !N.leb_le in E. lia.
Qed.

(** A string without surrogates is its own sequence of code points. *)
Lemma StringToCodePoints_ascii (s : jsstring) :
  Forall (fun c => c < 0x80) s -> StringToCodePoints s = s.
Proof.
  induction s as [|c r IH]; [reflexivity |].
  intros H. inversion H as [|? ? Hc Hr]; subst.
  simpl. destruct r as [|d r']; [reflexivity |].
  assert (Hlead : isLeadingSurrogate c = false).
  { unfold isLeadingSurrogate. apply andb_false_iff. left.
    apply N.leb_gt. lia. }
  rewrite Hlead. simpl. f_equal. exact (IH Hr).
Qed.

Lemma CodePointsToString_ascii (s : list N) :
  Forall (fun c => c < 0x80) s -> CodePointsToString s = s.
Proof.
  unfold CodePointsToString.
  induction 1 as [|c r Hc _ IH]; simpl; [reflexivity |].
  unfold UTF16EncodeCodePoint.
  assert (Hle : (c <=? 0xFFFF) = true) by (apply N.leb_le; lia).
  rewrite Hle. simpl. f_equal. exact IH.
Qed.

Section Lowercase.

Variable unicodeLower : list N -> N -> list N -> list N.

Lemma toLowercaseFrom_ascii (before s : list N) :
  Forall (fun c => c < 0x80) s ->
  toLowercaseFrom unicodeLower before s = List.map asciiLower s.
Proof.
  intros H. revert before.
  induction H as [|c r Hc _ IH]; intros before; simpl; [reflexivity |].
  rewrite IH. unfold lowerCodePoint, asciiLower.
  destruct ((0x41 <=? c) && (c <=? 0x5A)); [reflexivity |].
  apply N.ltb_lt in Hc. rewrite Hc. reflexivity.
Qed.

(** On an ASCII string [toLowerCase] is [asciiLower] on every code unit,
    whatever the Unicode table. *)
Lemma toLowerCase_ascii (s : jsstring) :
  Forall (fun c => c < 0x80) s ->
  toLowerCase unicodeLower s = List.map asciiLower s.
Proof.
  intros H. unfold toLowerCase.
  rewrite (StringToCodePoints_ascii s H), (toLowercaseFrom_ascii [] s H).
  apply CodePointsToString_ascii.
  apply List.Forall_map. eapply List.Forall_impl; [| exact H].
  intros c. apply asciiLower_ascii.
Qed.

End Lowercase.

Lemma replaceWhitespaceRunsFrom_no_space (inRun : bool) (s : jsstring) :
  Forall (fun c => isWhiteSpace c = false) s ->
  replaceWhitespaceRunsFrom inRun s = s.
Proof.
  intros H. revert inRun.
  induction H as [|c r Hc _ IH]; intros inRun; simpl; [reflexivity |].
  rewrite Hc, IH. reflexivity.
Qed.

Lemma stripNonSlugChars_id (s : jsstring) :
  Forall (fun c => isSlugChar c = true) s -> stripNonSlugChars s = s.
Proof.
  unfold stripNonSlugChars.
  induction 1 as [|c r Hc _ IH]; simpl; [reflexivity |].
  rewrite Hc, IH. reflexivity.
Qed.

(** A trimmed string is made of code units of the string. *)
Lemma trimStart_Forall (P : N -> Prop) (s : jsstring) :
  Forall P s -> Forall P (trimStart s).
Proof.
  induction 1 as [|c r Hc Hr IH]; simpl; [constructor |].
  destruct (isWhiteSpace c); [exact IH | constructor; assumption].
Qed.

Lemma trim_Forall (P : N -> Prop) (s : jsstring) :
  Forall P s -> Forall P (trim s).
Proof.
  intros H. unfold trim, trimEnd.
  apply List.Forall_rev, trimStart_Forall, List.Forall_rev, trimStart_Forall, H.
Qed.

End AsciiFacts.

Import AsciiFacts.

Section SlugMore.

Variable unicodeLower : list N -> N -> list N -> list N.

Lemma slugOf_fixed (raw : jsstring) :
  Forall (fun c => isSlugChar c = true) raw ->
  slugOf unicodeLower raw = raw.
Proof.
  intros Hslug.
  assert (Hns : Forall (fun c => isWhiteSpace c = false) raw).
  { eapply List.Forall_impl; [| exact Hslug]. intros c. apply isSlugChar_not_space. }
  assert (Hascii : Forall (fun c => c < 0x80) raw).
  { eapply List.Forall_impl; [| exact Hslug]. intros c. apply isSlugChar_ascii. }
  unfold slugOf. rewrite (trim_no_space raw Hns).
  rewrite (toLowerCase_ascii unicodeLower raw Hascii).
  assert (Hmap : List.map asciiLower raw = raw).
  { clear -Hslug. induction Hslug as [|c r Hc _ IH]; simpl; [reflexivity |].
    rewrite (isSlugChar_asciiLower c Hc), IH. reflexivity. }
  rewrite Hmap. unfold replaceWhitespaceRuns.
  rewrite (replaceWhitespaceRunsFrom_no_space false raw Hns).
  apply stripNonSlugChars_id, Hslug.
Qed.

(** X1.  An identifier already made of lower-case letters, digits and
    hyphens only is its own slug: the creation flow stores it as typed. *)
Theorem slugOf_valid_id (raw : jsstring) :
  Forall (fun c => (0x61 <= c <= 0x7A) \/ (0x30 <= c <= 0x39) \/ c = 0x2D) raw ->
  slugOf unicodeLower raw = raw.
Proof.
  intros H. apply slugOf_fixed.
  eapply List.Forall_impl; [| exact H]. intros c Hc. now apply isSlugChar_spec.
Qed.

(** X2.  Slug derivation is idempotent: the slug of a slug is that slug,
    so an identifier copied from the list and typed again names the same
    case. *)
Theorem slugOf_idempotent (raw : jsstring) :
  slugOf unicodeLower (slugOf unicodeLower raw) = slugOf unicodeLower raw.
Proof.
  apply slugOf_fixed. unfold slugOf at 1. apply stripNonSlugChars_Forall.
Qed.

(** An identifier whose trim is empty (nothing but white space) has the
    empty slug. *)
Lemma slugOf_blank (raw : jsstring) :
  trim raw = [] -> slugOf unicodeLower raw = [].
Proof. intros H. unfold slugOf. rewrite H. reflexivity. Qed.

(** X3.  For an ASCII input the normalisation of the capture form, trim
    then lower-case, does not depend on the Unicode table and is
    idempotent: an identity that was stored, typed again, is stored as the
    same string. *)
Theorem normalise_ascii_idempotent (input : jsstring) :
  Forall (fun c => c < 0x80) input ->
  toLowerCase unicodeLower (trim input) = List.map asciiLower (trim input)
  /\ toLowerCase unicodeLower (trim (toLowerCase unicodeLower (trim input))) =
     toLowerCase unicodeLower (trim input).
Proof.
  intros H.
  assert (Ht : Forall (fun c => c < 0x80) (trim input)) by (apply trim_Forall, H).
  assert (Hl := toLowerCase_ascii unicodeLower (trim input) Ht).
  split; [exact Hl |].
  rewrite Hl, (trim_map asciiLower _ asciiLower_space), trim_idem.
  rewrite toLowerCase_ascii.
  - rewrite List.map_map. apply List.map_ext. intros c. apply asciiLower_idem.
  - apply List.Forall_map. eapply List.Forall_impl; [| exact Ht].
    intros c. apply asciiLower_ascii.
Qed.

End SlugMore.

(** ** The handlers, await by await *)

Section AsyncFacts.

Variable unicodeLower : list N -> N -> list N -> list N.
Variable env : Env.

Lemma loadCasesAsync_run (forEmail : jsstring) (w : World) :
  loadCasesAsync forEmail w =
  (Pending (listQuery forEmail) AwaitSelect,
   {| page := {| cases := cases (page w); newId := newId (page w);
                 newTitle := newTitle (page w); creating := creating (page w);
                 loading := true; email := email (page w);
                 emailInput := emailInput (page w);
                 deleting := deleting (page w) |};
      localStorage := localStorage w;
      log := log w ++ [CreateClient; listQuery forEmail] |}).
Proof.
  unfold loadCasesAsync, await, createClient. unfold_actions. simpl.
  flatten_log. reflexivity.
Qed.

Lemma resume_select_run (data : option (list CaseRow)) (w : World) :
  resume AwaitSelect data w =
  (Finished,
   {| page := {| cases := default [] data; newId := newId (page w);
                 newTitle := newTitle (page w); creating := creating (page w);
                 loading := false; email := email (page w);
                 emailInput := emailInput (page w);
                 deleting := deleting (page w) |};
      localStorage := localStorage w;
      log := log w |}).
Proof. reflexivity. Qed.

Lemma resume_insert_run (e : jsstring) (data : option (list CaseRow)) (w : World) :
  resume (AwaitInsert e) data w =
  (Pending (listQuery e) AwaitSelect,
   {| page := {| cases := cases (page w); newId := []; newTitle := [];
                 creating := false; loading := true; email := email (page w);
                 emailInput := emailInput (page w);
                 deleting := deleting (page w) |};
      localStorage := localStorage w;
      log := log w ++ [CreateClient; listQuery e] |}).
Proof.
  unfold resume, loadCasesAsync, await, createClient. unfold_actions. simpl.
  flatten_log. reflexivity.
Qed.

Lemma resume_delete_responses_run (caseId e : jsstring)
    (data : option (list CaseRow)) (w : World) :
  resume (AwaitDeleteResponses caseId e) data w =
  (Pending (Delete (js "case_config") (js "id") caseId) (AwaitDeleteCase e),
   {| page := page w; localStorage := localStorage w;
      log := log w ++ [Delete (js "case_config") (js "id") caseId] |}).
Proof. reflexivity. Qed.

Lemma resume_delete_case_run (e : jsstring) (data : option (list CaseRow)) (w : World) :
  resume (AwaitDeleteCase e) data w =
  (Pending (listQuery e) AwaitSelect,
   {| page := {| cases := cases (page w); newId := newId (page w);
                 newTitle := newTitle (page w); creating := creating (page w);
                 loading := true; email := email (page w);
                 emailInput := emailInput (page w); deleting := None |};
      localStorage := localStorage w;
      log := log w ++ [CreateClient; listQuery e] |}).
Proof.
  unfold resume, loadCasesAsync, await, createClient. unfold_actions. simpl.
  flatten_log. reflexivity.
Qed.

Lemma handleCreateAsync_skipped (w : World) :
  truthyOrNull (email (page w)) = None \/
  slugOf unicodeLower (newId (page w)) = [] ->
  handleCreateAsync unicodeLower w =
  (Finished, {| page := page w; localStorage := localStorage w;
                log := log w ++ [PreventDefault] |}).
Proof.
  intros H. unfold handleCreateAsync. unfold_actions. simpl.
  destruct (truthyOrNull (email (page w))) as [e|]; [| reflexivity].
  destruct H as [H | H]; [discriminate |]. rewrite H. reflexivity.
Qed.

Lemma handleCreateAsync_run (w : World) (e : jsstring) :
  truthyOrNull (email (page w)) = Some e ->
  slugOf unicodeLower (newId (page w)) <> [] ->
  let row := {| new_id := slugOf unicodeLower (newId (page w));
                new_title := orElse (trim (newTitle (page w))) (js "New Case");
                new_created_by := e |} in
  handleCreateAsync unicodeLower w =
  (Pending (Insert (js "case_config") row) (AwaitInsert e),
   {| page := {| cases := cases (page w); newId := newId (page w);
                 newTitle := newTitle (page w); creating := true;
                 loading := loading (page w); email := email (page w);
                 emailInput := emailInput (page w);
                 deleting := deleting (page w) |};
      localStorage := localStorage w;
      log := log w ++ [PreventDefault; CreateClient; Insert (js "case_config") row] |}).
Proof.
  intros He Hs. apply truthy_true_iff in Hs.
  unfold handleCreateAsync, await, createClient. unfold_actions. simpl.
  rewrite He, Hs. simpl. flatten_log. reflexivity.
Qed.

Lemma handleDeleteAsync_skipped (caseId caseTitle : jsstring) (w : World) :
  truthyOrNull (email (page w)) = None ->
  handleDeleteAsync env caseId caseTitle w = (Finished, w).
Proof.
  intros H. unfold handleDeleteAsync. unfold_actions. simpl. rewrite H.
  reflexivity.
Qed.

Lemma handleDeleteAsync_declined (caseId caseTitle : jsstring) (w : World)
    (e : jsstring) :
  truthyOrNull (email (page w)) = Some e ->
  userConfirms env (log w ++ [WindowConfirm (confirmMessage caseTitle)]) = false ->
  handleDeleteAsync env caseId caseTitle w =
  (Finished, {| page := page w; localStorage := localStorage w;
                log := log w ++ [WindowConfirm (confirmMessage caseTitle)] |}).
Proof.
  intros He Hno. unfold handleDeleteAsync, windowConfirm. unfold_actions. simpl.
  rewrite He. simpl. rewrite Hno. reflexivity.
Qed.

Lemma handleDeleteAsync_run (caseId caseTitle : jsstring) (w : World) (e : jsstring) :
  truthyOrNull (email (page w)) = Some e ->
  userConfirms env (log w ++ [WindowConfirm (confirmMessage caseTitle)]) = true ->
  handleDeleteAsync env caseId caseTitle w =
  (Pending (Delete (js "responses") (js "case_id") caseId)
           (AwaitDeleteResponses caseId e),
   {| page := {| cases := cases (page w); newId := newId (page w);
                 newTitle := newTitle (page w); creating := creating (page w);
                 loading := loading (page w); email := email (page w);
                 emailInput := emailInput (page w);
                 deleting := Some caseId |};
      localStorage := localStorage w;
      log := log w ++ [WindowConfirm (confirmMessage caseTitle); CreateClient;
                       Delete (js "responses") (js "case_id") caseId] |}).
Proof.
  intros He Hyes. unfold handleDeleteAsync, windowConfirm, await, createClient.
  unfold_actions. simpl. rewrite He. simpl. rewrite Hyes. simpl.
  flatten_log. reflexivity.
Qed.

End AsyncFacts.

Section RunToEnd.

Variable unicodeLower : list N -> N -> list N -> list N.
Variable env : Env.

Lemma complete_finished (n : nat) (w : World) :
  complete env n Finished w = (true, w).
Proof. destruct n; reflexivity. Qed.

(** X4.  Answering every [await] as soon as it is reached, with no other
    event in between, the three asynchronous functions finish (one answer
    for [loadCases], two for [handleCreate], three for [handleDelete]) and
    leave the world that the sequential reading of their code gives. *)
Theorem runToEnd_sequential (n : nat) (forEmail caseId caseTitle : jsstring)
    (w : World) :
  runToEnd env (1 + n) (loadCasesAsync forEmail) w =
    (true, exec (loadCases env forEmail) w)
  /\ runToEnd env (2 + n) (handleCreateAsync unicodeLower) w =
    (true, exec (handleCreate unicodeLower env) w)
  /\ runToEnd env (3 + n) (handleDeleteAsync env caseId caseTitle) w =
    (true, exec (handleDelete env caseId caseTitle) w).
Proof.
  split; [| split].
  - unfold runToEnd, bind. rewrite loadCasesAsync_run.
    unfold exec. rewrite loadCases_run. simpl. rewrite complete_finished.
    reflexivity.
  - unfold runToEnd, bind.
    destruct (truthyOrNull (email (page w))) as [e|] eqn:He.
    + destruct (slugOf unicodeLower (newId (page w))) as [|c r] eqn:Hs.
      * rewrite (handleCreateAsync_skipped unicodeLower w (or_intror Hs)).
        rewrite (handleCreate_skipped unicodeLower env w (or_intror Hs)).
        reflexivity.
      * assert (Hne : slugOf unicodeLower (newId (page w)) <> [])
          by (rewrite Hs; discriminate).
        rewrite (handleCreateAsync_run unicodeLower w e He Hne).
        rewrite (handleCreate_exec unicodeLower env w e He Hne).
        cbv zeta. simpl. rewrite complete_finished. simpl.
        flatten_log. reflexivity.
    + rewrite (handleCreateAsync_skipped unicodeLower w (or_introl He)).
      rewrite (handleCreate_skipped unicodeLower env w (or_introl He)).
      reflexivity.
  - unfold runToEnd, bind.
    destruct (truthyOrNull (email (page w))) as [e|] eqn:He.
    + destruct (userConfirms env (log w ++ [WindowConfirm (confirmMessage caseTitle)]))
        eqn:Hans.
      * rewrite (handleDeleteAsync_run env caseId caseTitle w e He Hans).
        rewrite (handleDelete_exec env caseId caseTitle w e He Hans).
        cbv zeta. simpl. rewrite complete_finished. simpl.
        flatten_log. reflexivity.
      * rewrite (handleDeleteAsync_declined env caseId caseTitle w e He Hans).
        rewrite (handleDelete_declined env caseId caseTitle w e He Hans).
        reflexivity.
    + rewrite (handleDeleteAsync_skipped env caseId caseTitle w He).
      rewrite (handleDelete_skipped env caseId caseTitle w He).
      destruct w. reflexivity.
Qed.

End RunToEnd.

(** ** The page as a system *)

Section SystemFacts.

Variable unicodeLower : list N -> N -> list N -> list N.
Variable env : Env.

Lemma emailEffectAsync_identity (w : World) (e : jsstring) :
  email (page w) = Some e -> e <> [] ->
  emailEffectAsync w = loadCasesAsync e w.
Proof.
  intros He Hne. unfold emailEffectAsync, bind, render.
  rewrite He, (truthyOrNull_Some e Hne). reflexivity.
Qed.

Lemma emailEffectAsync_none (w : World) :
  truthyOrNull (email (page w)) = None ->
  emailEffectAsync w = (Finished, w).
Proof.
  intros He. unfold emailEffectAsync, bind, render. rewrite He. reflexivity.
Qed.

Lemma react_quiet (m : Action Async) (s : System) (t : Async) (w1 : World) :
  m (world s) = (t, w1) ->
  email (page w1) = email (page (world s)) ->
  react m s = {| world := w1; inflight := inflight s ++ pendingOf t |}.
Proof.
  intros Hm He. unfold react. rewrite Hm.
  destruct (decide (email (page w1) = email (page (world s)))) as [_|Hn];
    [| contradiction].
  simpl. rewrite app_nil_r. reflexivity.
Qed.

Lemma react_changed (m : Action Async) (s : System) (t : Async) (w1 : World) :
  m (world s) = (t, w1) ->
  email (page w1) <> email (page (world s)) ->
  react m s =
  {| world := snd (emailEffectAsync w1);
     inflight := inflight s ++ pendingOf t ++ pendingOf (fst (emailEffectAsync w1)) |}.
Proof.
  intros Hm He. unfold react. rewrite Hm.
  destruct (decide (email (page w1) = email (page (world s)))) as [Hn|_];
    [contradiction |].
  destruct (emailEffectAsync w1). reflexivity.
Qed.

Lemma fire_answer (s : System) (n : nat) (data : option (list CaseRow))
    (before after : list (Call * Await)) (request : Call) (point : Await) :
  inflight s = before ++ (request, point) :: after ->
  n = length before ->
  fire unicodeLower env (Answer n data) s =
  react (resume point data) {| world := world s; inflight := before ++ after |}.
Proof.
  intros Hin ->. simpl. rewrite Hin, list_lookup_middle by reflexivity.
  rewrite delete_middle. reflexivity.
Qed.

Lemma fire_ChangeEmailInput (v : jsstring) (s : System) :
  fire unicodeLower env (ChangeEmailInput v) s =
  {| world := exec (setEmailInput v) (world s); inflight := inflight s |}.
Proof.
  unfold fire. erewrite react_quiet; [| reflexivity | reflexivity].
  simpl. rewrite app_nil_r. reflexivity.
Qed.

Lemma fire_ChangeNewId (v : jsstring) (s : System) :
  fire unicodeLower env (ChangeNewId v) s =
  {| world := exec (setNewId v) (world s); inflight := inflight s |}.
Proof.
  unfold fire. erewrite react_quiet; [| reflexivity | reflexivity].
  simpl. rewrite app_nil_r. reflexivity.
Qed.

Lemma fire_ChangeNewTitle (v : jsstring) (s : System) :
  fire unicodeLower env (ChangeNewTitle v) s =
  {| world := exec (setNewTitle v) (world s); inflight := inflight s |}.
Proof.
  unfold fire. erewrite react_quiet; [| reflexivity | reflexivity].
  simpl. rewrite app_nil_r. reflexivity.
Qed.

Lemma fire_SubmitCreate_sent (s : System) (e : jsstring) :
  email (page (world s)) = Some e ->
  e <> [] ->
  slugOf unicodeLower (newId (page (world s))) <> [] ->
  fire unicodeLower env SubmitCreate s =
  {| world := exec (handleCreateAsync unicodeLower) (world s);
     inflight := inflight s ++
       [(Insert (js "case_config")
           {| new_id := slugOf unicodeLower (newId (page (world s)));
              new_title := orElse (trim (newTitle (page (world s)))) (js "New Case");
              new_created_by := e |},
         AwaitInsert e)] |}.
Proof.
  intros He Hne Hslug.
  assert (Ht : truthyOrNull (email (page (world s))) = Some e)
    by (rewrite He; apply truthyOrNull_Some, Hne).
  assert (H1 := handleCreateAsync_run unicodeLower (world s) e Ht Hslug).
  cbv zeta in H1. unfold fire, exec.
  erewrite react_quiet; [| exact H1 | reflexivity]. rewrite H1. reflexivity.
Qed.

Lemma fire_answer_select (s : System) (before after : list (Call * Await))
    (request : Call) (data : option (list CaseRow)) :
  inflight s = before ++ (request, AwaitSelect) :: after ->
  fire unicodeLower env (Answer (length before) data) s =
  {| world :=
       {| page := {| cases := default [] data; newId := newId (page (world s));
                     newTitle := newTitle (page (world s));
                     creating := creating (page (world s)); loading := false;
                     email := email (page (world s));
                     emailInput := emailInput (page (world s));
                     deleting := deleting (page (world s)) |};
          localStorage := localStorage (world s);
          log := log (world s) |};
     inflight := before ++ after |}.
Proof.
  intros Hin. erewrite fire_answer; [| exact Hin | reflexivity].
  erewrite react_quiet; [| apply resume_select_run | reflexivity].
  cbn [world inflight pendingOf]. rewrite app_nil_r. reflexivity.
Qed.

Lemma fire_answer_insert (s : System) (before after : list (Call * Await))
    (request : Call) (e : jsstring) (data : option (list CaseRow)) :
  inflight s = before ++ (request, AwaitInsert e) :: after ->
  fire unicodeLower env (Answer (length before) data) s =
  {| world :=
       {| page := {| cases := cases (page (world s)); newId := []; newTitle := [];
                     creating := false; loading := true;
                     email := email (page (world s));
                     emailInput := emailInput (page (world s));
                     deleting := deleting (page (world s)) |};
          localStorage := localStorage (world s);
          log := log (world s) ++ [CreateClient; listQuery e] |};
     inflight := (before ++ after) ++ [(listQuery e, AwaitSelect)] |}.
Proof.
  intros Hin. erewrite fire_answer; [| exact Hin | reflexivity].
  erewrite react_quiet; [| apply resume_insert_run | reflexivity].
  reflexivity.
Qed.

Lemma fire_answer_delete_responses (s : System) (before after : list (Call * Await))
    (request : Call) (caseId e : jsstring) (data : option (list CaseRow)) :
  inflight s = before ++ (request, AwaitDeleteResponses caseId e) :: after ->
  fire unicodeLower env (Answer (length before) data) s =
  {| world :=
       {| page := page (world s);
          localStorage := localStorage (world s);
          log := log (world s) ++ [Delete (js "case_config") (js "id") caseId] |};
     inflight := (before ++ after) ++
       [(Delete (js "case_config") (js "id") caseId, AwaitDeleteCase e)] |}.
Proof.
  intros Hin. erewrite fire_answer; [| exact Hin | reflexivity].
  erewrite react_quiet; [| apply resume_delete_responses_run | reflexivity].
  reflexivity.
Qed.

Lemma fire_answer_delete_case (s : System) (before after : list (Call * Await))
    (request : Call) (e : jsstring) (data : option (list CaseRow)) :
  inflight s = before ++ (request, AwaitDeleteCase e) :: after ->
  fire unicodeLower env (Answer (length before) data) s =
  {| world :=
       {| page := {| cases := cases (page (world s));
                     newId := newId (page (world s));
                     newTitle := newTitle (page (world s));
                     creating := creating (page (world s)); loading := true;
                     email := email (page (world s));
                     emailInput := emailInput (page (world s));
                     deleting := None |};
          localStorage := localStorage (world s);
          log := log (world s) ++ [CreateClient; listQuery e] |};
     inflight := (before ++ after) ++ [(listQuery e, AwaitSelect)] |}.
Proof.
  intros Hin. erewrite fire_answer; [| exact Hin | reflexivity].
  erewrite react_quiet; [| apply resume_delete_case_run | reflexivity].
  reflexivity.
Qed.

(** An answer to a request that is not pending changes nothing. *)
Lemma fire_answer_unknown (s : System) (n : nat) (data : option (list CaseRow)) :
  (length (inflight s) <= n)%nat ->
  fire unicodeLower env (Answer n data) s = s.
Proof.
  intros Hn. simpl. rewrite lookup_ge_None_2 by exact Hn. reflexivity.
Qed.

(** X5.  Text typed in the two fields of the creation form while the insert
    is pending is lost: when the insert is answered, whatever the answer
    (an error such as a duplicate identifier too), both fields are emptied,
    the creating flag is cleared and the list is asked again for the
    identity that submitted. *)
Theorem typed_during_create_is_cleared (s : System) (e typedId typedTitle : jsstring)
    (data : option (list CaseRow)) :
  email (page (world s)) = Some e ->
  e <> [] ->
  slugOf unicodeLower (newId (page (world s))) <> [] ->
  newId (page (world (run unicodeLower env
      [SubmitCreate; ChangeNewId typedId; ChangeNewTitle typedTitle] s))) = typedId
  /\ creating (page (world (run unicodeLower env
      [SubmitCreate; ChangeNewId typedId; ChangeNewTitle typedTitle] s))) = true
  /\ page (world (run unicodeLower env
      [SubmitCreate; ChangeNewId typedId; ChangeNewTitle typedTitle;
       Answer (length (inflight s)) data] s)) =
     {| cases := cases (page (world s)); newId := []; newTitle := [];
        creating := false; loading := true; email := Some e;
        emailInput := emailInput (page (world s));
        deleting := deleting (page (world s)) |}
  /\ inflight (run unicodeLower env
      [SubmitCreate; ChangeNewId typedId; ChangeNewTitle typedTitle;
       Answer (length (inflight s)) data] s) =
     inflight s ++ [(listQuery e, AwaitSelect)]
  /\ log (world (run unicodeLower env
      [SubmitCreate; ChangeNewId typedId; ChangeNewTitle typedTitle;
       Answer (length (inflight s)) data] s)) =
     log (world s) ++
     [PreventDefault; CreateClient;
      Insert (js "case_config")
        {| new_id := slugOf unicodeLower (newId (page (world s)));
           new_title := orElse (trim (newTitle (page (world s)))) (js "New Case");
           new_created_by := e |};
      CreateClient; listQuery e].
Proof.
  intros He Hne Hslug.
  assert (Ht : truthyOrNull (email (page (world s))) = Some e)
    by (rewrite He; apply truthyOrNull_Some, Hne).
  assert (H1 := handleCreateAsync_run unicodeLower (world s) e Ht Hslug).
  cbv zeta in H1.
  unfold run. cbn [List.fold_left].
  rewrite (fire_SubmitCreate_sent s e He Hne Hslug).
  rewrite !fire_ChangeNewId, !fire_ChangeNewTitle.
  unfold exec. rewrite H1. cbn [snd world inflight].
  split; [reflexivity |]. split; [reflexivity |].
  erewrite fire_answer_insert by (cbn [inflight]; reflexivity).
  simpl. rewrite He. flatten_log. rewrite ?app_nil_r. repeat split.
Qed.

Lemma fire_ClickSwitch (s : System) :
  fire unicodeLower env ClickSwitch s =
  {| world := exec handleSwitch (world s); inflight := inflight s |}.
Proof.
  unfold fire.
  destruct (decide (email (page (exec handleSwitch (world s)))
                    = email (page (world s)))) as [Heq|Hne].
  - erewrite react_quiet; [| reflexivity | exact Heq].
    simpl. rewrite app_nil_r. reflexivity.
  - erewrite react_changed; [| reflexivity | exact Hne].
    simpl. rewrite app_nil_r. reflexivity.
Qed.

Lemma handleEmailSubmit_adopted_run (w : World) :
  toLowerCase unicodeLower (trim (emailInput (page w))) <> [] ->
  sync (handleEmailSubmit unicodeLower) w =
  (Finished,
   {| page := {| cases := cases (page w); newId := newId (page w);
                 newTitle := newTitle (page w); creating := creating (page w);
                 loading := loading (page w);
                 email := Some (toLowerCase unicodeLower (trim (emailInput (page w))));
                 emailInput := emailInput (page w);
                 deleting := deleting (page w) |};
      localStorage :=
        <[ instructor_email := toLowerCase unicodeLower (trim (emailInput (page w))) ]>
          (localStorage w);
      log := log w ++
             [PreventDefault;
              SetItem instructor_email
                (toLowerCase unicodeLower (trim (emailInput (page w))))] |}).
Proof.
  intros Hv. unfold sync, handleEmailSubmit. unfold_actions. simpl.
  apply truthy_true_iff in Hv. rewrite Hv. simpl. flatten_log. reflexivity.
Qed.

Lemma fire_SubmitEmail_adopted (s : System) :
  toLowerCase unicodeLower (trim (emailInput (page (world s)))) <> [] ->
  email (page (world s)) <>
    Some (toLowerCase unicodeLower (trim (emailInput (page (world s))))) ->
  fire unicodeLower env SubmitEmail s =
  {| world :=
       {| page := {| cases := cases (page (world s));
                     newId := newId (page (world s));
                     newTitle := newTitle (page (world s));
                     creating := creating (page (world s));
                     loading := true;
                     email := Some (toLowerCase unicodeLower
                                      (trim (emailInput (page (world s)))));
                     emailInput := emailInput (page (world s));
                     deleting := deleting (page (world s)) |};
          localStorage :=
            <[ instructor_email :=
                 toLowerCase unicodeLower (trim (emailInput (page (world s)))) ]>
              (localStorage (world s));
          log := log (world s) ++
                 [PreventDefault;
                  SetItem instructor_email
                    (toLowerCase unicodeLower (trim (emailInput (page (world s)))));
                  CreateClient;
                  listQuery (toLowerCase unicodeLower
                               (trim (emailInput (page (world s)))))] |};
     inflight := inflight s ++
       [(listQuery (toLowerCase unicodeLower (trim (emailInput (page (world s))))),
         AwaitSelect)] |}.
Proof.
  intros Hv Hnew.
  remember (toLowerCase unicodeLower (trim (emailInput (page (world s))))) as v eqn:Ev.
  assert (Hrun : sync (handleEmailSubmit unicodeLower) (world s) =
    (Finished,
     {| page := {| cases := cases (page (world s));
                   newId := newId (page (world s));
                   newTitle := newTitle (page (world s));
                   creating := creating (page (world s));
                   loading := loading (page (world s));
                   email := Some v;
                   emailInput := emailInput (page (world s));
                   deleting := deleting (page (world s)) |};
        localStorage := <[ instructor_email := v ]> (localStorage (world s));
        log := log (world s) ++ [PreventDefault; SetItem instructor_email v] |})).
  { unfold sync, handleEmailSubmit. unfold_actions. simpl. rewrite <- Ev.
    apply truthy_true_iff in Hv. rewrite Hv. simpl. flatten_log. reflexivity. }
  unfold fire. erewrite react_changed; [| exact Hrun |].
  - erewrite emailEffectAsync_identity; [| reflexivity | exact Hv].
    rewrite loadCasesAsync_run. simpl. flatten_log. reflexivity.
  - simpl. congruence.
Qed.

Lemma fire_ClickDelete_sent (s : System) (e caseId caseTitle : jsstring) :
  email (page (world s)) = Some e ->
  e <> [] ->
  userConfirms env (log (world s) ++ [WindowConfirm (confirmMessage caseTitle)]) = true ->
  fire unicodeLower env (ClickDelete caseId caseTitle) s =
  {| world :=
       {| page := {| cases := cases (page (world s));
                     newId := newId (page (world s));
                     newTitle := newTitle (page (world s));
                     creating := creating (page (world s));
                     loading := loading (page (world s));
                     email := email (page (world s));
                     emailInput := emailInput (page (world s));
                     deleting := Some caseId |};
          localStorage := localStorage (world s);
          log := log (world s) ++
                 [WindowConfirm (confirmMessage caseTitle); CreateClient;
                  Delete (js "responses") (js "case_id") caseId] |};
     inflight := inflight s ++
       [(Delete (js "responses") (js "case_id") caseId,
         AwaitDeleteResponses caseId e)] |}.
Proof.
  intros He Hne Hyes.
  assert (Ht : truthyOrNull (email (page (world s))) = Some e)
    by (rewrite He; apply truthyOrNull_Some, Hne).
  unfold fire.
  erewrite react_quiet;
    [| exact (handleDeleteAsync_run env caseId caseTitle (world s) e Ht Hyes)
     | reflexivity].
  reflexivity.
Qed.

Lemma fire_Mount_identity (s : System) (stored : jsstring) :
  localStorage (world s) !! instructor_email = Some stored ->
  stored <> [] ->
  fire unicodeLower env Mount s =
  {| world :=
       {| page := {| cases := []; newId := []; newTitle := []; creating := false;
                     loading := true; email := Some stored; emailInput := [];
                     deleting := None |};
          localStorage := localStorage (world s);
          log := log (world s) ++
                 [GetItem instructor_email; CreateClient; listQuery stored] |};
     inflight := [(listQuery stored, AwaitSelect)] |}.
Proof.
  intros Hst Hne. unfold fire.
  assert (Hrun : sync mountEffect (world (reload s)) =
    (Finished,
     {| page := {| cases := []; newId := []; newTitle := []; creating := false;
                   loading := true; email := Some stored; emailInput := [];
                   deleting := None |};
        localStorage := localStorage (world s);
        log := log (world s) ++ [GetItem instructor_email] |})).
  { unfold sync, mountEffect. unfold_actions. simpl. rewrite Hst.
    rewrite (truthyOrNull_Some stored Hne). reflexivity. }
  erewrite react_changed; [| exact Hrun | simpl; discriminate].
  erewrite emailEffectAsync_identity; [| reflexivity | exact Hne].
  rewrite loadCasesAsync_run. simpl. flatten_log. reflexivity.
Qed.

Lemma fire_Mount_none (s : System) :
  truthyOrNull (localStorage (world s) !! instructor_email) = None ->
  fire unicodeLower env Mount s =
  {| world := {| page := preIdentityPage;
                 localStorage := localStorage (world s);
                 log := log (world s) ++ [GetItem instructor_email] |};
     inflight := [] |}.
Proof.
  intros Hst. unfold fire.
  assert (Hrun : sync mountEffect (world (reload s)) =
    (Finished,
     {| page := preIdentityPage; localStorage := localStorage (world s);
        log := log (world s) ++ [GetItem instructor_email] |})).
  { unfold sync, mountEffect. unfold_actions. simpl. rewrite Hst. reflexivity. }
  erewrite react_quiet; [| exact Hrun | reflexivity]. reflexivity.
Qed.

(** X6.  A confirmed deletion, answer by answer.  The click marks the case
    and sends the delete of its responses only; the delete of the case is
    sent when that one is answered, and the marker is cleared and the list
    asked again when the second is answered, whatever the two answers are.
    As long as the marker is set, the delete buttons of exactly the rows
    with that identifier are disabled. *)
Theorem deletion_step_by_step (s : System) (e caseId caseTitle : jsstring)
    (d1 d2 : option (list CaseRow)) :
  email (page (world s)) = Some e ->
  e <> [] ->
  userConfirms env (log (world s) ++ [WindowConfirm (confirmMessage caseTitle)]) = true ->
  let n := length (inflight s) in
  let s1 := fire unicodeLower env (ClickDelete caseId caseTitle) s in
  let s2 := fire unicodeLower env (Answer n d1) s1 in
  let s3 := fire unicodeLower env (Answer n d2) s2 in
  (deleting (page (world s1)) = Some caseId
   /\ log (world s1) = log (world s) ++
        [WindowConfirm (confirmMessage caseTitle); CreateClient;
         Delete (js "responses") (js "case_id") caseId]
   /\ inflight s1 = inflight s ++
        [(Delete (js "responses") (js "case_id") caseId,
          AwaitDeleteResponses caseId e)])
  /\ (deleting (page (world s2)) = Some caseId
      /\ log (world s2) = log (world s1) ++
           [Delete (js "case_config") (js "id") caseId]
      /\ inflight s2 = inflight s ++
           [(Delete (js "case_config") (js "id") caseId, AwaitDeleteCase e)])
  /\ (deleting (page (world s3)) = None
      /\ loading (page (world s3)) = true
      /\ log (world s3) = log (world s2) ++ [CreateClient; listQuery e]
      /\ inflight s3 = inflight s ++ [(listQuery e, AwaitSelect)])
  /\ (forall c : CaseRow,
        deleteDisabled (rowView (deleting (page (world s2))) c) = true
        <-> id c = caseId).
Proof.
  intros He Hne Hyes n s1 s2 s3.
  assert (E1 := fire_ClickDelete_sent s e caseId caseTitle He Hne Hyes).
  fold s1 in E1.
  assert (E2 := fire_answer_delete_responses s1 (inflight s) []
                 (Delete (js "responses") (js "case_id") caseId) caseId e d1).
  rewrite E1 in E2 at 1. specialize (E2 eq_refl). fold n s2 in E2.
  rewrite app_nil_r in E2.
  assert (E3 := fire_answer_delete_case s2 (inflight s) []
                 (Delete (js "case_config") (js "id") caseId) e d2).
  rewrite E2 in E3 at 1. specialize (E3 eq_refl). fold n s3 in E3.
  rewrite app_nil_r in E3.
  rewrite E3, E2, E1. cbn [world inflight page deleting loading log].
  split; [repeat split |]. split; [repeat split |]. split; [repeat split |].
  intros c. unfold rowView, isDeleting. cbn [deleteDisabled].
  rewrite bool_decide_eq_true. split; congruence.
Qed.

(** X7.  A list answer that arrives late is not discarded.  When a list
    query is pending and the user switches and signs in again (as anybody),
    the answer to the old query becomes the list shown to the new identity,
    with the loading flag cleared, while the query of the new identity is
    still pending. *)
Theorem late_list_answer_is_shown (s : System) (before after : list (Call * Await))
    (query : Call) (typed : jsstring) (data : option (list CaseRow)) :
  inflight s = before ++ (query, AwaitSelect) :: after ->
  toLowerCase unicodeLower (trim typed) <> [] ->
  let s' := run unicodeLower env
              [ClickSwitch; ChangeEmailInput typed; SubmitEmail;
               Answer (length before) data] s in
  email (page (world s')) = Some (toLowerCase unicodeLower (trim typed))
  /\ cases (page (world s')) = default [] data
  /\ loading (page (world s')) = false
  /\ listView (page (world s')) =
       match default [] data with
       | [] => NoCases
       | rows => CaseList (List.map (rowView (deleting (page (world s)))) rows)
       end
  /\ inflight s' = before ++ after ++
       [(listQuery (toLowerCase unicodeLower (trim typed)), AwaitSelect)].
Proof.
  intros Hin Hv s'. unfold s', run. cbn [List.fold_left].
  rewrite fire_ClickSwitch, fire_ChangeEmailInput.
  rewrite fire_SubmitEmail_adopted; [| exact Hv | discriminate].
  erewrite fire_answer_select
    by (cbn [inflight]; rewrite Hin, <- app_assoc; reflexivity).
  cbn [world inflight page email cases loading].
  split; [reflexivity |]. split; [reflexivity |]. split; [reflexivity |].
  split; [| reflexivity].
  unfold listView. cbn. destruct (default [] data); reflexivity.
Qed.

(** X8.  Loading the page with a non-empty identity in [localStorage]:
    the dashboard is shown for it with the spinner, exactly one list query,
    for that identity, is sent and pending, and the requests of the page
    before the load are forgotten; the answer then fills the list and
    clears the loading flag. *)
Theorem load_with_stored_identity (s : System) (stored : jsstring)
    (data : option (list CaseRow)) :
  localStorage (world s) !! instructor_email = Some stored ->
  stored <> [] ->
  let s1 := fire unicodeLower env Mount s in
  let s2 := fire unicodeLower env (Answer 0 data) s1 in
  view (page (world s1)) =
    DashboardView stored [] [] true (js "Create") Spinner
  /\ log (world s1) = log (world s) ++
       [GetItem instructor_email; CreateClient; listQuery stored]
  /\ inflight s1 = [(listQuery stored, AwaitSelect)]
  /\ page (world s2) =
       {| cases := default [] data; newId := []; newTitle := [];
          creating := false; loading := false; email := Some stored;
          emailInput := []; deleting := None |}
  /\ log (world s2) = log (world s1)
  /\ inflight s2 = [].
Proof.
  intros Hst Hne. cbv zeta.
  rewrite (fire_Mount_identity s stored Hst Hne).
  change 0%nat with (length (@nil (Call * Await))).
  rewrite (fire_answer_select _ [] [] (listQuery stored) data) by reflexivity.
  cbn [world inflight page log app].
  split; [| repeat split].
  unfold view. cbn [email]. rewrite (truthyOrNull_Some stored Hne). reflexivity.
Qed.

(** X9.  Loading the page when [localStorage] has no identity, or the
    empty string as identity: nothing is sent to the remote store, the
    state is the one before any identity with the loading flag cleared, and
    the capture form is shown, empty, with its button disabled. *)
Theorem load_without_identity (s : System) :
  localStorage (world s) !! instructor_email = None
  \/ localStorage (world s) !! instructor_email = Some [] ->
  page (world (fire unicodeLower env Mount s)) = preIdentityPage
  /\ view (page (world (fire unicodeLower env Mount s))) = PromptView [] true
  /\ log (world (fire unicodeLower env Mount s)) =
       log (world s) ++ [GetItem instructor_email]
  /\ inflight (fire unicodeLower env Mount s) = []
  /\ localStorage (world (fire unicodeLower env Mount s)) = localStorage (world s).
Proof.
  intros H.
  assert (Hst : truthyOrNull (localStorage (world s) !! instructor_email) = None)
    by (destruct H as [-> | ->]; reflexivity).
  rewrite (fire_Mount_none s Hst). repeat split.
Qed.

(** X10.  Signing in.  When no identity is known and the input of the
    capture form has a non-empty normal form, the submit stores that normal
    form under the identity key, shows the dashboard for it with the
    spinner, and sends exactly one list query, filtered by the normal
    form. *)
Theorem sign_in_loads_list (s : System) :
  email (page (world s)) = None ->
  toLowerCase unicodeLower (trim (emailInput (page (world s)))) <> [] ->
  let v := toLowerCase unicodeLower (trim (emailInput (page (world s)))) in
  let s' := fire unicodeLower env SubmitEmail s in
  view (page (world s')) =
    DashboardView v (newId (page (world s))) (newTitle (page (world s)))
      (negb (truthy (trim (newId (page (world s))))) || creating (page (world s)))
      (if creating (page (world s)) then js "..." else js "Create")
      Spinner
  /\ localStorage (world s') !! instructor_email = Some v
  /\ log (world s') = log (world s) ++
       [PreventDefault; SetItem instructor_email v; CreateClient; listQuery v]
  /\ inflight s' = inflight s ++ [(listQuery v, AwaitSelect)].
Proof.
  intros He Hv. cbv zeta.
  rewrite fire_SubmitEmail_adopted; [| exact Hv | rewrite He; discriminate].
  cbn [world page log localStorage inflight].
  split; [| split; [apply lookup_insert_eq | split; reflexivity]].
  unfold view. cbn [email emailInput newId newTitle creating].
  rewrite (truthyOrNull_Some _ Hv). reflexivity.
Qed.

(** X11.  An identity given to the capture form survives a reload: after
    submit and a load of the page, the identity is the normalised input
    again, read back from [localStorage], and its list is asked for. *)
Theorem identity_survives_reload (s : System) (typed : jsstring) :
  toLowerCase unicodeLower (trim typed) <> [] ->
  let s' := run unicodeLower env [ChangeEmailInput typed; SubmitEmail; Mount] s in
  email (page (world s')) = Some (toLowerCase unicodeLower (trim typed))
  /\ localStorage (world s') !! instructor_email =
       Some (toLowerCase unicodeLower (trim typed))
  /\ inflight s' = [(listQuery (toLowerCase unicodeLower (trim typed)), AwaitSelect)].
Proof.
  intros Hv s'. unfold s', run. cbn [List.fold_left].
  rewrite fire_ChangeEmailInput.
  set (s1 := {| world := exec (setEmailInput typed) (world s);
                inflight := inflight s |}).
  assert (Hsub : localStorage (world (fire unicodeLower env SubmitEmail s1))
                 !! instructor_email = Some (toLowerCase unicodeLower (trim typed))).
  { destruct (decide (email (page (world s1)) =
                      Some (toLowerCase unicodeLower (trim typed)))) as [Heq|Hneq].
    - unfold fire.
      erewrite react_quiet;
        [| exact (handleEmailSubmit_adopted_run (world s1) Hv)
         | cbn [page email]; symmetry; exact Heq].
      cbn [world localStorage]. apply lookup_insert_eq.
    - rewrite fire_SubmitEmail_adopted; [| exact Hv | exact Hneq].
      cbn [world localStorage]. apply lookup_insert_eq. }
  rewrite (fire_Mount_identity _ _ Hsub Hv). cbn [world page email localStorage inflight].
  repeat split. exact Hsub.
Qed.

(** X12.  A switch is remembered: after the switch, a reload of the page
    finds no identity, sends nothing to the remote store and shows the
    empty capture form. *)
Theorem switch_survives_reload (s : System) :
  let s' := run unicodeLower env [ClickSwitch; Mount] s in
  page (world s') = preIdentityPage
  /\ view (page (world s')) = PromptView [] true
  /\ log (world s') =
       log (world s) ++ [RemoveItem instructor_email; GetItem instructor_email]
  /\ inflight s' = []
  /\ localStorage (world s') !! instructor_email = None.
Proof.
  intros s'. unfold s', run. cbn [List.fold_left].
  rewrite fire_ClickSwitch.
  assert (Hnone : localStorage (exec handleSwitch (world s)) !! instructor_email = None)
    by apply lookup_delete_eq.
  rewrite fire_Mount_none by (cbn [world]; rewrite Hnone; reflexivity).
  cbn [world page log localStorage inflight].
  split; [reflexivity |]. split; [reflexivity |].
  split; [| split; [reflexivity | exact Hnone]].
  unfold handleSwitch. unfold_actions. cbn. flatten_log. reflexivity.
Qed.

End SystemFacts.

(** ** Invariants of the sessions *)

Module LogFacts.

Lemma dependentsFirst_nil : dependentsFirst [].
Proof. intros [|c before] caseId after H; discriminate H. Qed.

(** Appending calls keeps the order, when a delete of a case comes alone
    and after the delete of its responses. *)
Lemma dependentsFirst_app (lg new : list Call) :
  dependentsFirst lg ->
  (forall caseId, In (Delete (js "case_config") (js "id") caseId) new ->
     new = [Delete (js "case_config") (js "id") caseId]
     /\ In (Delete (js "responses") (js "case_id") caseId) lg) ->
  dependentsFirst (lg ++ new).
Proof.
  intros Hlg Hnew before caseId after Heq.
  apply List.app_eq_app in Heq. destruct Heq as [l [[H1 H2] | [H1 H2]]].
  - (* the delete stands in [new] or at the border *)
    destruct l as [|c l].
    + rewrite app_nil_r in H1. subst before. simpl in H2.
      assert (Hin : In (Delete (js "case_config") (js "id") caseId) new)
        by (rewrite <- H2; left; reflexivity).
      exact (proj2 (Hnew caseId Hin)).
    + simpl in H2. injection H2 as <- H2.
      apply (Hlg before caseId l). exact H1.
  - assert (Hin : In (Delete (js "case_config") (js "id") caseId) new).
    { rewrite H2. apply List.in_or_app. right. left. reflexivity. }
    destruct (Hnew caseId Hin) as [Hone Hresp].
    rewrite Hone in H2. destruct l as [|c l].
    + subst before. rewrite app_nil_r. exact Hresp.
    + simpl in H2. injection H2 as _ H2. destruct l; discriminate H2.
Qed.

Lemma flightOk_app (lg new : list Call) (f : Call * Await) :
  flightOk lg f -> flightOk (lg ++ new) f.
Proof.
  unfold flightOk. destruct (snd f); try tauto.
  intros [He Hin]. split; [exact He |]. apply List.in_or_app. left. exact Hin.
Qed.

Lemma Forall_flightOk_app (lg new : list Call) (fl : list (Call * Await)) :
  Forall (flightOk lg) fl -> Forall (flightOk (lg ++ new)) fl.
Proof.
  intros H. eapply List.Forall_impl; [| exact H]. intros f. apply flightOk_app.
Qed.

End LogFacts.

Import LogFacts.

Lemma trim_edgeSpace (s : jsstring) : edgeSpace (trim s) = false.
Proof.
  rewrite trim_unfold. destruct (trimStart s) as [|c r] eqn:E; [reflexivity |].
  assert (Hc := trimStart_head s c r E).
  unfold edgeSpace. simpl. rewrite Hc. simpl.
  unfold trimEnd. rewrite List.rev_involutive.
  destruct (trimStart (List.rev r)) as [|d t] eqn:E'; simpl; [exact Hc |].
  exact (trimStart_head _ d t E').
Qed.

Lemma title_well_formed (raw : jsstring) :
  orElse (trim raw) (js "New Case") <> []
  /\ edgeSpace (orElse (trim raw) (js "New Case")) = false.
Proof.
  unfold orElse. destruct (trim raw) as [|c r] eqn:E; simpl.
  - split; [discriminate | reflexivity].
  - split; [discriminate |]. rewrite <- E. apply trim_edgeSpace.
Qed.

Section Invariants.

Variable unicodeLower : list N -> N -> list N -> list N.
Variable env : Env.

Lemma worldOk_extend (w w1 : World) (new : list Call) :
  worldOk w ->
  identityStored w1 ->
  log w1 = log w ++ new ->
  Forall wellFormedCall new ->
  (forall caseId, In (Delete (js "case_config") (js "id") caseId) new ->
     new = [Delete (js "case_config") (js "id") caseId]
     /\ In (Delete (js "responses") (js "case_id") caseId) (log w)) ->
  worldOk w1.
Proof.
  intros (Hid & Hwf & Hdf) Hid1 Hlog Hnew Hdel.
  split; [exact Hid1 |]. rewrite Hlog. split.
  - apply List.Forall_app. split; assumption.
  - apply dependentsFirst_app; assumption.
Qed.

Lemma identityStored_frame (w w1 : World) :
  email (page w1) = email (page w) ->
  localStorage w1 = localStorage w ->
  identityStored w -> identityStored w1.
Proof. unfold identityStored. intros -> ->. tauto. Qed.

Lemma listQuery_well_formed (e : jsstring) :
  e <> [] -> Forall wellFormedCall [CreateClient; listQuery e].
Proof.
  intros He. repeat constructor. exact He.
Qed.

Ltac no_case_delete :=
  let caseId := fresh "caseId" in
  let H := fresh "H" in
  intros caseId H; simpl in H;
  repeat (destruct H as [H | H]; [discriminate H |]);
  destruct H.

Lemma action_ok_intro (m : Action Async) (w : World) (t : Async) (w1 : World)
    (new : list Call) :
  m w = (t, w1) ->
  (identityStored w -> identityStored w1) ->
  log w1 = log w ++ new ->
  Forall wellFormedCall new ->
  (forall caseId, In (Delete (js "case_config") (js "id") caseId) new ->
     new = [Delete (js "case_config") (js "id") caseId]
     /\ In (Delete (js "responses") (js "case_id") caseId) (log w)) ->
  Forall (flightOk (log w1)) (pendingOf t) ->
  actionOk m w.
Proof.
  intros Hm Hid Hlog Hnew Hdel Hfl Hw. rewrite Hm. cbn [fst snd].
  split; [| split].
  - eapply worldOk_extend; [exact Hw | apply Hid, Hw | exact Hlog | exact Hnew
                           | exact Hdel].
  - eexists. exact Hlog.
  - exact Hfl.
Qed.

Lemma identityStored_same (w w1 : World) :
  email (page w1) = email (page w) ->
  localStorage w1 = localStorage w ->
  identityStored w -> identityStored w1.
Proof. apply identityStored_frame. Qed.

Lemma loadCasesAsync_ok (e : jsstring) (w : World) :
  e <> [] -> actionOk (loadCasesAsync e) w.
Proof.
  intros He.
  eapply action_ok_intro; [apply loadCasesAsync_run | | reflexivity | | | ].
  - apply identityStored_same; reflexivity.
  - apply listQuery_well_formed, He.
  - no_case_delete.
  - repeat constructor.
Qed.

Lemma emailEffectAsync_ok (w : World) : actionOk emailEffectAsync w.
Proof.
  intros Hw. revert Hw.
  destruct (email (page w)) as [e|] eqn:He.
  - intros Hw.
    assert (Hne : e <> []).
    { destruct Hw as (Hid & _). unfold identityStored in Hid. rewrite He in Hid.
      tauto. }
    unfold actionOk in *. rewrite (emailEffectAsync_identity w e He Hne).
    apply loadCasesAsync_ok; assumption.
  - eapply (action_ok_intro _ w Finished w []).
    + apply emailEffectAsync_none. rewrite He. reflexivity.
    + tauto.
    + symmetry. apply app_nil_r.
    + constructor.
    + intros caseId [].
    + constructor.
Qed.

Lemma change_ok (m : Action unit) (w w1 : World) :
  m w = (tt, w1) ->
  email (page w1) = email (page w) ->
  localStorage w1 = localStorage w ->
  log w1 = log w ->
  actionOk (sync m) w.
Proof.
  intros Hm He Hs Hl.
  eapply (action_ok_intro _ w Finished w1 []).
  - unfold sync, bind, ret. rewrite Hm. reflexivity.
  - apply identityStored_same; assumption.
  - rewrite app_nil_r. exact Hl.
  - constructor.
  - intros caseId [].
  - constructor.
Qed.

Lemma mountEffect_ok (w : World) : actionOk (sync mountEffect) w.
Proof.
  destruct (localStorage w !! instructor_email) as [[|c r]|] eqn:Hst.
  - eapply (action_ok_intro _ w Finished _ [GetItem instructor_email]).
    + unfold sync, mountEffect. unfold_actions. simpl. rewrite Hst. reflexivity.
    + apply identityStored_same; reflexivity.
    + reflexivity.
    + repeat constructor.
    + no_case_delete.
    + constructor.
  - eapply (action_ok_intro _ w Finished _ [GetItem instructor_email]).
    + unfold sync, mountEffect. unfold_actions. simpl. rewrite Hst. reflexivity.
    + intros _. unfold identityStored. simpl. split; [discriminate | exact Hst].
    + reflexivity.
    + repeat constructor.
    + no_case_delete.
    + constructor.
  - eapply (action_ok_intro _ w Finished _ [GetItem instructor_email]).
    + unfold sync, mountEffect. unfold_actions. simpl. rewrite Hst. reflexivity.
    + apply identityStored_same; reflexivity.
    + reflexivity.
    + repeat constructor.
    + no_case_delete.
    + constructor.
Qed.

Lemma handleEmailSubmit_ok (w : World) :
  actionOk (sync (handleEmailSubmit unicodeLower)) w.
Proof.
  destruct (toLowerCase unicodeLower (trim (emailInput (page w)))) as [|c r] eqn:Hv.
  - eapply (action_ok_intro _ w Finished _ [PreventDefault]).
    + unfold sync, handleEmailSubmit. unfold_actions. simpl. rewrite Hv.
      reflexivity.
    + apply identityStored_same; reflexivity.
    + reflexivity.
    + repeat constructor.
    + no_case_delete.
    + constructor.
  - assert (Hne : toLowerCase unicodeLower (trim (emailInput (page w))) <> [])
      by (rewrite Hv; discriminate).
    eapply action_ok_intro;
      [exact (handleEmailSubmit_adopted_run unicodeLower w Hne) | | reflexivity | | | ].
    + intros _. unfold identityStored. simpl. split; [exact Hne |].
      apply lookup_insert_eq.
    + repeat constructor. exact Hne.
    + no_case_delete.
    + constructor.
Qed.

Lemma handleSwitch_ok (w : World) : actionOk (sync handleSwitch) w.
Proof.
  eapply (action_ok_intro _ w Finished _ [RemoveItem instructor_email]).
  - unfold sync, handleSwitch. unfold_actions. simpl. reflexivity.
  - intros _. exact I.
  - reflexivity.
  - repeat constructor.
  - no_case_delete.
  - constructor.
Qed.

Lemma truthyOrNull_inv (o : option jsstring) (e : jsstring) :
  truthyOrNull o = Some e -> o = Some e /\ e <> [].
Proof.
  destruct o as [[|c r]|]; simpl; try discriminate.
  intros H. injection H as <-. split; [reflexivity | discriminate].
Qed.

Lemma handleCreateAsync_ok (w : World) : actionOk (handleCreateAsync unicodeLower) w.
Proof.
  destruct (truthyOrNull (email (page w))) as [e|] eqn:He.
  - destruct (slugOf unicodeLower (newId (page w))) as [|c r] eqn:Hs.
    + eapply action_ok_intro;
        [exact (handleCreateAsync_skipped unicodeLower w (or_intror Hs))
        | | reflexivity | | | ].
      * apply identityStored_same; reflexivity.
      * repeat constructor.
      * no_case_delete.
      * constructor.
    + assert (Hne : slugOf unicodeLower (newId (page w)) <> [])
        by (rewrite Hs; discriminate).
      destruct (truthyOrNull_inv _ _ He) as [_ Hene].
      eapply action_ok_intro;
        [exact (handleCreateAsync_run unicodeLower w e He Hne)
        | | reflexivity | | | ].
      * apply identityStored_same; reflexivity.
      * repeat constructor; simpl.
        -- exact Hne.
        -- unfold slugOf. apply stripNonSlugChars_Forall.
        -- apply title_well_formed.
        -- apply title_well_formed.
        -- exact Hene.
      * no_case_delete.
      * repeat constructor. exact Hene.
  - eapply action_ok_intro;
      [exact (handleCreateAsync_skipped unicodeLower w (or_introl He))
      | | reflexivity | | | ].
    + apply identityStored_same; reflexivity.
    + repeat constructor.
    + no_case_delete.
    + constructor.
Qed.

Lemma handleDeleteAsync_ok (caseId caseTitle : jsstring) (w : World) :
  actionOk (handleDeleteAsync env caseId caseTitle) w.
Proof.
  destruct (truthyOrNull (email (page w))) as [e|] eqn:He.
  - destruct (truthyOrNull_inv _ _ He) as [_ Hene].
    destruct (userConfirms env (log w ++ [WindowConfirm (confirmMessage caseTitle)]))
      eqn:Hans.
    + eapply action_ok_intro;
        [exact (handleDeleteAsync_run env caseId caseTitle w e He Hans)
        | | reflexivity | | | ].
      * apply identityStored_same; reflexivity.
      * repeat constructor.
      * no_case_delete.
      * repeat constructor; [exact Hene |]. simpl.
        apply List.in_or_app. right. right. right. left. reflexivity.
    + eapply action_ok_intro;
        [exact (handleDeleteAsync_declined env caseId caseTitle w e He Hans)
        | | reflexivity | | | ].
      * apply identityStored_same; reflexivity.
      * repeat constructor.
      * no_case_delete.
      * constructor.
  - eapply (action_ok_intro _ w Finished w []).
    + exact (handleDeleteAsync_skipped env caseId caseTitle w He).
    + tauto.
    + symmetry. apply app_nil_r.
    + constructor.
    + intros c [].
    + constructor.
Qed.

Lemma resume_ok (request : Call) (point : Await) (data : option (list CaseRow))
    (w : World) :
  flightOk (log w) (request, point) -> actionOk (resume point data) w.
Proof.
  unfold flightOk. cbn [snd]. destruct point as [|e|caseId e|e]; intros Hf.
  - eapply (action_ok_intro _ w Finished _ []).
    + apply resume_select_run.
    + apply identityStored_same; reflexivity.
    + symmetry. apply app_nil_r.
    + constructor.
    + intros c [].
    + constructor.
  - eapply action_ok_intro; [apply resume_insert_run | | reflexivity | | | ].
    + apply identityStored_same; reflexivity.
    + apply listQuery_well_formed, Hf.
    + no_case_delete.
    + repeat constructor.
  - destruct Hf as [He Hin].
    eapply action_ok_intro;
      [apply resume_delete_responses_run | | reflexivity | | | ].
    + tauto.
    + constructor; [right; split; reflexivity | constructor].
    + intros c [H | []]. injection H as <-. split; [reflexivity | exact Hin].
    + repeat constructor. exact He.
  - eapply action_ok_intro; [apply resume_delete_case_run | | reflexivity | | | ].
    + apply identityStored_same; reflexivity.
    + apply listQuery_well_formed, Hf.
    + no_case_delete.
    + repeat constructor.
Qed.

Lemma react_ok (m : Action Async) (s : System) :
  systemOk s -> actionOk m (world s) -> systemOk (react m s).
Proof.
  intros [Hw Hfl] Hm. destruct (Hm Hw) as (Hw1 & [new1 Hl1] & Hf1).
  unfold react. destruct (m (world s)) as [t w1]. cbn [fst snd] in *.
  destruct (decide (email (page w1) = email (page (world s)))) as [_|_].
  - unfold ret. split; [exact Hw1 |]. cbn [world inflight].
    rewrite app_nil_r. apply List.Forall_app. split; [| exact Hf1].
    rewrite Hl1. apply Forall_flightOk_app, Hfl.
  - destruct (emailEffectAsync_ok w1 Hw1) as (Hw2 & [new2 Hl2] & Hf2).
    destruct (emailEffectAsync w1) as [t' w2]. cbn [fst snd] in *.
    split; [exact Hw2 |]. cbn [world inflight].
    rewrite !List.Forall_app. split; [| split; [| exact Hf2]].
    + rewrite Hl2, Hl1. apply Forall_flightOk_app, Forall_flightOk_app, Hfl.
    + rewrite Hl2. apply Forall_flightOk_app, Hf1.
Qed.

Lemma fire_ok (ev : Event) (s : System) :
  systemOk s -> systemOk (fire unicodeLower env ev s).
Proof.
  intros Hs. destruct ev as [|v|v|v| | | |caseId caseTitle|n data]; cbn [fire].
  - apply react_ok; [| apply mountEffect_ok].
    destruct Hs as [(_ & Hwf & Hdf) _]. split; [| constructor].
    split; [exact I | split; assumption].
  - apply react_ok; [exact Hs |]. eapply change_ok; reflexivity.
  - apply react_ok; [exact Hs |]. eapply change_ok; reflexivity.
  - apply react_ok; [exact Hs |]. eapply change_ok; reflexivity.
  - apply react_ok; [exact Hs | apply handleEmailSubmit_ok].
  - apply react_ok; [exact Hs | apply handleSwitch_ok].
  - apply react_ok; [exact Hs | apply handleCreateAsync_ok].
  - apply react_ok; [exact Hs | apply handleDeleteAsync_ok].
  - destruct (inflight s !! n) as [[request point]|] eqn:Hn; [| exact Hs].
    destruct Hs as [Hw Hfl].
    apply react_ok.
    + split; [exact Hw |]. cbn [world inflight]. apply Forall_delete, Hfl.
    + cbn [world]. apply (resume_ok request).
      rewrite List.Forall_forall in Hfl. apply Hfl.
      apply list_elem_of_In. eapply list_elem_of_lookup_2. exact Hn.
Qed.

Lemma run_ok (evs : list Event) (s : System) :
  systemOk s -> systemOk (run unicodeLower env evs s).
Proof.
  revert s. induction evs as [|ev evs IH]; intros s Hs; [exact Hs |].
  apply IH, fire_ok, Hs.
Qed.

Lemma boot_ok (storage : gmap (list N) (list N)) : systemOk (boot storage).
Proof.
  split; [| constructor]. split; [exact I |]. split; [constructor |].
  apply dependentsFirst_nil.
Qed.

Lemma session_ok (storage : gmap (list N) (list N)) (evs : list Event) :
  systemOk (session unicodeLower env storage evs).
Proof. apply run_ok, fire_ok, boot_ok. Qed.

(** X13.  In every session, whatever the events, the answers and their
    order, the identity in memory is either null or a non-empty string that
    is also the one in [localStorage] under the identity key. *)
Theorem session_identity_stored (storage : gmap (list N) (list N))
    (evs : list Event) :
  identityStored (world (session unicodeLower env storage evs)).
Proof.
  destruct (session_ok storage evs) as [(Hid & _ & _) _]. exact Hid.
Qed.

(** X14.  In every session every call made is well formed: [localStorage]
    is read, written and cleared under the identity key only and never
    given an empty identity; every select is the list query of a non-empty
    identity; every insert goes to [case_config] with a non-empty
    identifier made of [a-z0-9-], a non-empty title without white space
    around it and a non-empty owner; every delete is by [case_id] on
    [responses] or by [id] on [case_config]. *)
Theorem session_calls_well_formed (storage : gmap (list N) (list N))
    (evs : list Event) :
  Forall wellFormedCall (log (world (session unicodeLower env storage evs))).
Proof.
  destruct (session_ok storage evs) as [(_ & Hwf & _) _]. exact Hwf.
Qed.

(** X15.  In every session, also when events and answers interleave and
    several deletions overlap, the delete of a case is never sent unless
    the delete of its responses was sent before it. *)
Theorem session_dependents_first (storage : gmap (list N) (list N))
    (evs : list Event) :
  dependentsFirst (log (world (session unicodeLower env storage evs))).
Proof.
  destruct (session_ok storage evs) as [(_ & _ & Hdf) _]. exact Hdf.
Qed.

Lemma loadCasesAsync_storage (e : jsstring) (w : World) :
  localStorage (snd (loadCasesAsync e w)) = localStorage w.
Proof. rewrite loadCasesAsync_run. reflexivity. Qed.

Lemma emailEffectAsync_storage (w : World) :
  localStorage (snd (emailEffectAsync w)) = localStorage w.
Proof.
  unfold emailEffectAsync, bind, render.
  destruct (truthyOrNull (email (page w))); [apply loadCasesAsync_storage |].
  reflexivity.
Qed.

Lemma react_storage (m : Action Async) (s : System) :
  localStorage (world (react m s)) = localStorage (snd (m (world s))).
Proof.
  unfold react. destruct (m (world s)) as [t w1]. cbn [snd].
  destruct (decide (email (page w1) = email (page (world s)))); [reflexivity |].
  rewrite <- (emailEffectAsync_storage w1).
  destruct (emailEffectAsync w1). reflexivity.
Qed.

Lemma resume_storage (point : Await) (data : option (list CaseRow)) (w : World) :
  localStorage (snd (resume point data w)) = localStorage w.
Proof.
  destruct point; [reflexivity | | reflexivity |].
  - rewrite resume_insert_run. reflexivity.
  - rewrite resume_delete_case_run. reflexivity.
Qed.

Lemma handleCreateAsync_storage (w : World) :
  localStorage (snd (handleCreateAsync unicodeLower w)) = localStorage w.
Proof.
  unfold handleCreateAsync, await, createClient. unfold_actions. simpl.
  destruct (truthyOrNull (email (page w))); [| reflexivity].
  destruct (negb (truthy (slugOf unicodeLower (newId (page w))))); reflexivity.
Qed.

Lemma handleDeleteAsync_storage (caseId caseTitle : jsstring) (w : World) :
  localStorage (snd (handleDeleteAsync env caseId caseTitle w)) = localStorage w.
Proof.
  unfold handleDeleteAsync, windowConfirm, await, createClient. unfold_actions.
  simpl. destruct (truthyOrNull (email (page w))); [| reflexivity]. simpl.
  destruct (negb (userConfirms env _)); reflexivity.
Qed.

Lemma fire_other_keys (ev : Event) (s : System) (key : jsstring) :
  key <> instructor_email ->
  localStorage (world (fire unicodeLower env ev s)) !! key =
  localStorage (world s) !! key.
Proof.
  intros Hk.
  destruct ev as [|v|v|v| | | |caseId caseTitle|n data]; cbn [fire];
    try (rewrite react_storage; reflexivity).
  - rewrite react_storage. unfold sync, mountEffect. unfold_actions. simpl.
    destruct (truthyOrNull (localStorage (world s) !! instructor_email));
      reflexivity.
  - rewrite react_storage. unfold sync, handleEmailSubmit. unfold_actions. simpl.
    destruct (negb (truthy _)); simpl; [reflexivity |].
    apply lookup_insert_ne. congruence.
  - rewrite react_storage. unfold sync, handleSwitch. unfold_actions. simpl.
    apply lookup_delete_ne. congruence.
  - rewrite react_storage, handleCreateAsync_storage. reflexivity.
  - rewrite react_storage, handleDeleteAsync_storage. reflexivity.
  - destruct (inflight s !! n) as [[request point]|]; [| reflexivity].
    rewrite react_storage, resume_storage. reflexivity.
Qed.

(** X16.  In every session the keys of [localStorage] other than the
    identity key keep the values they had when the page was first loaded. *)
Theorem session_other_keys (storage : gmap (list N) (list N)) (evs : list Event)
    (key : jsstring) :
  key <> instructor_email ->
  localStorage (world (session unicodeLower env storage evs)) !! key =
  storage !! key.
Proof.
  intros Hk. unfold session.
  assert (Hrun : forall s,
    localStorage (world (run unicodeLower env evs s)) !! key =
    localStorage (world s) !! key).
  { induction evs as [|ev evs' IH]; intros s; [reflexivity |].
    unfold run in *. cbn [List.fold_left]. rewrite IH.
    apply fire_other_keys, Hk. }
  rewrite Hrun, (fire_other_keys Mount (boot storage) key Hk). reflexivity.
Qed.

End Invariants.

(** ** The controls and the handlers *)

Section Controls.

Variable unicodeLower : list N -> N -> list N -> list N.
Variable env : Env.

(** X17.  When the dashboard shows the Create button disabled although no
    creation is pending, the identifier field holds nothing but white
    space, and a submit that would get through all the same does nothing:
    the page and the storage are unchanged and nothing is sent to the
    remote store. *)
Theorem disabled_create_does_nothing (w : World) (who idValue titleValue label : jsstring)
    (shown : ListView) :
  view (page w) = DashboardView who idValue titleValue true label shown ->
  creating (page w) = false ->
  forallb isWhiteSpace (newId (page w)) = true
  /\ page (exec (handleCreate unicodeLower env) w) = page w
  /\ localStorage (exec (handleCreate unicodeLower env) w) = localStorage w
  /\ remoteCalls (issued (handleCreate unicodeLower env) w) = [].
Proof.
  intros Hview Hcreating. unfold view in Hview.
  destruct (truthyOrNull (email (page w))) as [e|]; [| discriminate Hview].
  injection Hview as _ _ _ Hdis _ _.
  rewrite Hcreating, orb_false_r in Hdis. apply negb_true_iff in Hdis.
  assert (Htrim : trim (newId (page w)) = []).
  { destruct (trim (newId (page w))); [reflexivity | discriminate Hdis]. }
  split; [apply trim_nil_iff, Htrim |].
  assert (Hslug : slugOf unicodeLower (newId (page w)) = [])
    by (apply slugOf_blank, Htrim).
  assert (Hexec := handleCreate_skipped unicodeLower env w (or_intror Hslug)).
  erewrite issued_of_log by (rewrite Hexec; reflexivity).
  rewrite Hexec. repeat split.
Qed.

(** X18.  The capture form writes to [localStorage] exactly when its input
    has a code unit that is not white space: an input of white space only
    (or empty) makes no call but [preventDefault], any other input makes one
    [setItem] of its normal form under the identity key.  (No code point
    has an empty lower-case mapping.) *)
Theorem submit_writes_iff_not_blank (w : World) :
  (forall before c after, unicodeLower before c after <> []) ->
  issued (handleEmailSubmit unicodeLower) w =
  if forallb isWhiteSpace (emailInput (page w))
  then [PreventDefault]
  else [PreventDefault;
        SetItem instructor_email
          (toLowerCase unicodeLower (trim (emailInput (page w))))].
Proof.
  intros Hlow. apply issued_of_log.
  destruct (forallb isWhiteSpace (emailInput (page w))) eqn:Hblank.
  - apply (proj2 (trim_nil_iff _)) in Hblank.
    unfold handleEmailSubmit. unfold_actions. simpl. rewrite Hblank. reflexivity.
  - assert (Hne : toLowerCase unicodeLower (trim (emailInput (page w))) <> []).
    { intros H.
      apply (proj1 (toLowerCase_nil_iff unicodeLower Hlow _)) in H.
      apply (proj1 (trim_nil_iff _)) in H. congruence. }
    apply truthy_true_iff in Hne.
    unfold handleEmailSubmit. unfold_actions. simpl. rewrite Hne. simpl.
    flatten_log. reflexivity.
Qed.



End Controls.

(** ** The links of a row *)

(** X20.  Each of the four links of a row determines its case: two rows
    with the same setup, student, board or instructor link have the same
    identifier.  For an identifier made of [a-z0-9-], as the creation flow
    makes them, the four links hold nothing but such code units and the
    slash. *)
Theorem row_links_name_the_case (marker marker' : option jsstring) (c c' : CaseRow) :
  (setupHref (rowView marker c) = setupHref (rowView marker' c') -> id c = id c')
  /\ (studentHref (rowView marker c) = studentHref (rowView marker' c') ->
      id c = id c')
  /\ (boardHref (rowView marker c) = boardHref (rowView marker' c') -> id c = id c')
  /\ (instructorHref (rowView marker c) = instructorHref (rowView marker' c') ->
      id c = id c')
  /\ (Forall (fun u => isSlugChar u = true) (id c) ->
      Forall (fun u => isSlugChar u = true \/ u = 0x2F)
        (setupHref (rowView marker c) ++ studentHref (rowView marker c)
         ++ boardHref (rowView marker c) ++ instructorHref (rowView marker c))).
Proof.
  unfold rowView.
  cbn [setupHref studentHref boardHref instructorHref].
  split; [| split; [| split; [| split]]].
  - intros H. apply app_inv_head in H. apply app_inv_tail in H. exact H.
  - intros H. apply app_inv_head in H. exact H.
  - intros H. apply app_inv_head in H. apply app_inv_tail in H. exact H.
  - intros H. apply app_inv_head in H. apply app_inv_tail in H. exact H.
  - intros Hid.
    assert (Hid' : Forall (fun u => isSlugChar u = true \/ u = 0x2F) (id c)).
    { eapply List.Forall_impl; [| exact Hid]. intros u Hu. left. exact Hu. }
    assert (Hlit : forall lit : jsstring,
              forallb (fun u => isSlugChar u || (u =? 0x2F)) lit = true ->
              Forall (fun u => isSlugChar u = true \/ u = 0x2F) lit).
    { intros lit Hl. rewrite List.forallb_forall in Hl.
      apply List.Forall_forall. intros u Hu. specialize (Hl u Hu).
      apply orb_true_iff in Hl. destruct Hl as [Hl | Hl]; [left; exact Hl |].
      right. apply N.eqb_eq, Hl. }
    repeat (apply List.Forall_app; split);
      try exact Hid'; apply Hlit; reflexivity.
Qed.

(** ** Instances *)

Lemma slugOf_valid_id_witness :
  slugOf Samples.latin1Lower (js "skims-2024") = js "skims-2024".
Proof.
  apply (slugOf_valid_id Samples.latin1Lower (js "skims-2024")).
  cbn. repeat (constructor; [lia |]). constructor.
Defined.

Lemma normalise_ascii_idempotent_witness :
  toLowerCase Samples.latin1Lower (trim (js " Bob@School.EDU ")) =
    List.map asciiLower (trim (js " Bob@School.EDU "))
  /\ toLowerCase Samples.latin1Lower
       (trim (toLowerCase Samples.latin1Lower (trim (js " Bob@School.EDU ")))) =
     toLowerCase Samples.latin1Lower (trim (js " Bob@School.EDU ")).
Proof.
  apply (normalise_ascii_idempotent Samples.latin1Lower (js " Bob@School.EDU ")).
  cbn. repeat (constructor; [reflexivity |]). constructor.
Defined.

Lemma typed_during_create_is_cleared_witness :
  page (world (run Samples.latin1Lower Samples.agreeing
      [SubmitCreate; ChangeNewId (js "next"); ChangeNewTitle (js "Next");
       Answer 0 None] (MoreSamples.signedIn (js "My Case") (js "Mine")))) =
  {| cases := [Samples.skims]; newId := []; newTitle := []; creating := false;
     loading := true; email := Some (js "bob@school.edu"); emailInput := [];
     deleting := None |}.
Proof.
  refine (proj1 (proj2 (proj2
    (typed_during_create_is_cleared Samples.latin1Lower Samples.agreeing
       (MoreSamples.signedIn (js "My Case") (js "Mine")) (js "bob@school.edu")
       (js "next") (js "Next") None eq_refl _ _)))); discriminate.
Defined.

Lemma deletion_step_by_step_witness :
  log (world (fire Samples.latin1Lower Samples.agreeing
                (ClickDelete (js "skims") (js "Skims"))
                (MoreSamples.signedIn [] []))) =
  [WindowConfirm (confirmMessage (js "Skims")); CreateClient;
   Delete (js "responses") (js "case_id") (js "skims")].
Proof.
  refine (proj1 (proj2 (proj1
    (deletion_step_by_step Samples.latin1Lower Samples.agreeing
       (MoreSamples.signedIn [] []) (js "bob@school.edu") (js "skims") (js "Skims")
       None None eq_refl _ eq_refl)))). discriminate.
Defined.

Lemma late_list_answer_is_shown_witness :
  email (page (world (run Samples.latin1Lower Samples.agreeing
      [ClickSwitch; ChangeEmailInput (js "Eve@School.edu"); SubmitEmail;
       Answer 0 (Some [Samples.skims])] MoreSamples.listPending))) =
    Some (js "eve@school.edu")
  /\ cases (page (world (run Samples.latin1Lower Samples.agreeing
      [ClickSwitch; ChangeEmailInput (js "Eve@School.edu"); SubmitEmail;
       Answer 0 (Some [Samples.skims])] MoreSamples.listPending))) =
    [Samples.skims].
Proof.
  pose proof (late_list_answer_is_shown Samples.latin1Lower Samples.agreeing
                MoreSamples.listPending [] [] (listQuery (js "bob@school.edu"))
                (js "Eve@School.edu") (Some [Samples.skims]) eq_refl) as H.
  assert (Hv : toLowerCase Samples.latin1Lower (trim (js "Eve@School.edu")) <> [])
    by discriminate.
  destruct (H Hv) as (H1 & H2 & _). split; [exact H1 | exact H2].
Defined.

Lemma load_with_stored_identity_witness :
  view (page (world (fire Samples.latin1Lower Samples.agreeing Mount
                       (boot {[ instructor_email := js "bob@school.edu" ]})))) =
  DashboardView (js "bob@school.edu") [] [] true (js "Create") Spinner.
Proof.
  refine (proj1
    (load_with_stored_identity Samples.latin1Lower Samples.agreeing
       (boot {[ instructor_email := js "bob@school.edu" ]}) (js "bob@school.edu")
       None _ _)).
  - apply lookup_singleton_eq.
  - discriminate.
Defined.

Lemma load_without_identity_witness :
  page (world (fire Samples.latin1Lower Samples.agreeing Mount
                 (boot {[ instructor_email := [] ]}))) = preIdentityPage.
Proof.
  refine (proj1
    (load_without_identity Samples.latin1Lower Samples.agreeing
       (boot {[ instructor_email := [] ]}) _)).
  right. apply lookup_singleton_eq.
Defined.

Lemma identity_survives_reload_witness :
  email (page (world (run Samples.latin1Lower Samples.agreeing
      [ChangeEmailInput (js " Bob@School.EDU "); SubmitEmail; Mount] (boot ∅)))) =
  Some (js "bob@school.edu").
Proof.
  refine (proj1
    (identity_survives_reload Samples.latin1Lower Samples.agreeing (boot ∅)
       (js " Bob@School.EDU ") _)).
  discriminate.
Defined.

Lemma session_other_keys_witness :
  localStorage (world (session Samples.latin1Lower Samples.agreeing
      MoreSamples.otherKeyOnly
      [ChangeEmailInput (js "bob@school.edu"); SubmitEmail; ClickSwitch]))
    !! js "theme" = MoreSamples.otherKeyOnly !! js "theme".
Proof.
  apply (session_other_keys Samples.latin1Lower Samples.agreeing
           MoreSamples.otherKeyOnly
           [ChangeEmailInput (js "bob@school.edu"); SubmitEmail; ClickSwitch]
           (js "theme")).
  discriminate.
Defined.

Lemma disabled_create_does_nothing_witness :
  forallb isWhiteSpace (newId (page (Samples.dashboard (js "   ") (js "Skims")))) = true
  /\ page (exec (handleCreate Samples.latin1Lower Samples.agreeing)
                (Samples.dashboard (js "   ") (js "Skims"))) =
       page (Samples.dashboard (js "   ") (js "Skims"))
  /\ localStorage (exec (handleCreate Samples.latin1Lower Samples.agreeing)
                        (Samples.dashboard (js "   ") (js "Skims"))) =
       localStorage (Samples.dashboard (js "   ") (js "Skims"))
  /\ remoteCalls (issued (handleCreate Samples.latin1Lower Samples.agreeing)
                         (Samples.dashboard (js "   ") (js "Skims"))) = [].
Proof.
  exact (disabled_create_does_nothing Samples.latin1Lower Samples.agreeing
           (Samples.dashboard (js "   ") (js "Skims"))
           (js "bob@school.edu") (js "   ") (js "Skims") (js "Create")
           (CaseList [rowView None Samples.skims]) eq_refl eq_refl).
Defined.

Lemma sign_in_loads_list_witness :
  log (world (fire Samples.latin1Lower Samples.agreeing SubmitEmail
                {| world := Samples.capture (js " Bob@School.EDU ");
                   inflight := [] |})) =
  [PreventDefault; SetItem instructor_email (js "bob@school.edu");
   CreateClient; listQuery (js "bob@school.edu")].
Proof.
  refine (proj1 (proj2 (proj2
    (sign_in_loads_list Samples.latin1Lower Samples.agreeing
       {| world := Samples.capture (js " Bob@School.EDU "); inflight := [] |}
       eq_refl _)))).
  discriminate.
Defined.

Lemma submit_writes_iff_not_blank_witness :
  issued (handleEmailSubmit Samples.latin1Lower) (Samples.capture (js " Bob@School.EDU ")) =
    [PreventDefault; SetItem instructor_email (js "bob@school.edu")]
  /\ issued (handleEmailSubmit Samples.latin1Lower) (Samples.capture (js "   ")) =
    [PreventDefault].
Proof.
  assert (Hlow : forall before c after, Samples.latin1Lower before c after <> []).
  { intros before c after. unfold Samples.latin1Lower.
    destruct ((0xC0 <=? c) && (c <=? 0xDE) && negb (c =? 0xD7)); [discriminate |].
    destruct (c =? 0x212A); discriminate. }
  split.
  - exact (submit_writes_iff_not_blank Samples.latin1Lower
             (Samples.capture (js " Bob@School.EDU ")) Hlow).
  - exact (submit_writes_iff_not_blank Samples.latin1Lower
             (Samples.capture (js "   ")) Hlow).
Defined.

